(** * Weather-Forecast: a shallow embedding of the Qt widget and its city-code resolver

    The development follows the sources file by file:
    - [citycodeutils.h] / [citycodeutils.cpp]: the lazily loaded city table and
      the suffix-fallback resolver [getCityCodeFromName];
    - [widget.h] / [widget.cpp]: the stored forecast [days], the JSON parser
      [parseWeatherJsonDataNew], the label refresh [updateUI], the two trend
      charts [drawTempLineHigh] / [drawTempLineLow], the reply handler
      [readHttpReply] and the submit slot [on_LineEditCity_clicked].

    Qt values are modelled by what the program observes of them: a [QString] is
    its sequence of UTF-16 code units, a [QMap] is a finite map, a [QJsonValue]
    is a JSON tree, a C++ [int] is a 32-bit two's-complement integer, and the
    effects on the outside world (HTTP requests, modal message boxes, repaint
    requests) are appended to a log kept in the widget state. *)

From Stdlib Require Import ZArith QArith Lia.
From stdpp Require Import gmap strings list fin_maps.

#[local] Set Warnings "-register-all".
#[local] Open Scope Z_scope.

(** ** QString *)

(** A [QString] is a sequence of UTF-16 code units. *)
Abbreviation QChar := N.
Abbreviation QString := (list N).

Definition bytes_of (s : string) : list N :=
  (λ a, N.of_nat (Ascii.nat_of_ascii a)) <$> String.list_ascii_of_string s.

(** [QString::fromUtf8] on the bytes of a narrow string literal: every
    ["..."] literal of the sources reaches a [QString] through this
    conversion.  One, two and three byte sequences give one code unit, a four
    byte sequence gives a surrogate pair. *)
Fixpoint fromUtf8 (l : list N) : QString :=
  match l with
  | [] => []
  | b :: r =>
    if (b <? 0x80)%N then b :: fromUtf8 r
    else if (b <? 0xE0)%N then
      match r with
      | c1 :: r' =>
          N.lor (N.shiftl (N.land b 0x1F) 6) (N.land c1 0x3F) :: fromUtf8 r'
      | _ => []
      end
    else if (b <? 0xF0)%N then
      match r with
      | c1 :: c2 :: r' =>
          N.lor (N.shiftl (N.land b 0x0F) 12)
            (N.lor (N.shiftl (N.land c1 0x3F) 6) (N.land c2 0x3F))
          :: fromUtf8 r'
      | _ => []
      end
    else
      match r with
      | c1 :: c2 :: c3 :: r' =>
          let cp :=
            N.lor (N.shiftl (N.land b 0x07) 18)
              (N.lor (N.shiftl (N.land c1 0x3F) 12)
                 (N.lor (N.shiftl (N.land c2 0x3F) 6) (N.land c3 0x3F))) in
          let v := (cp - 0x10000)%N in
          (0xD800 + N.shiftr v 10)%N :: (0xDC00 + N.land v 0x3FF)%N
          :: fromUtf8 r'
      | _ => []
      end
  end.

(** The [QString] denoted by a string literal of the sources. *)
Definition qs (s : string) : QString := fromUtf8 (bytes_of s).

(** [QString::indexOf(needle)]: position of the first occurrence, [-1] when
    there is none. *)
Fixpoint indexOf_from (needle s : QString) (i : Z) : Z :=
  if bool_decide (needle `prefix_of` s) then i
  else match s with
       | [] => -1
       | _ :: r => indexOf_from needle r (i + 1)
       end.

Definition indexOf (needle s : QString) : Z := indexOf_from needle s 0.

(** [QString::right(n)]: the [n] rightmost code units; the whole string when
    [n] is negative or not smaller than the size. *)
Definition right (n : Z) (s : QString) : QString :=
  if bool_decide (n < 0 ∨ Z.of_nat (length s) <= n) then s
  else drop (length s - Z.to_nat n) s.

(** [QString::split(sep)] for a one-unit separator, empty parts kept: the
    result always has at least one element. *)
Fixpoint split (sep : QChar) (s : QString) : list QString :=
  match s with
  | [] => [[]]
  | c :: r =>
      if bool_decide (c = sep) then [] :: split sep r
      else match split sep r with
           | h :: t => (c :: h) :: t
           | [] => [[c]]
           end
  end.

(** ** C++ [int] *)

(** 32-bit two's-complement [int]: results are reduced into
    [-2^31 .. 2^31-1]. *)
Definition INT_MIN : Z := - 2 ^ 31.
Definition INT_MAX : Z := 2 ^ 31 - 1.

Definition in_int (z : Z) : Prop := INT_MIN <= z <= INT_MAX.

Definition int_wrap (z : Z) : Z := (z + 2 ^ 31) mod 2 ^ 32 - 2 ^ 31.

Definition int_add (a b : Z) : Z := int_wrap (a + b).
Definition int_sub (a b : Z) : Z := int_wrap (a - b).
Definition int_mul (a b : Z) : Z := int_wrap (a * b).
(** [/] on [int] truncates toward zero. *)
Definition int_div (a b : Z) : Z := int_wrap (Z.quot a b).

(** [QString::toInt()]: base-10 reading of an optionally signed digit string
    with surrounding white space ignored; [0] when the text is not a number
    or the number does not fit an [int]. *)
Definition is_space (c : QChar) : bool :=
  bool_decide (c = 32 ∨ 9 <= c <= 13)%N.

Definition is_digit (c : QChar) : bool := bool_decide (48 <= c <= 57)%N.

Fixpoint trim_left (s : QString) : QString :=
  match s with
  | c :: r => if is_space c then trim_left r else s
  | [] => []
  end.

Definition trimmed (s : QString) : QString :=
  reverse (trim_left (reverse (trim_left s))).

Fixpoint digits_value (acc : Z) (s : QString) : option Z :=
  match s with
  | [] => Some acc
  | c :: r =>
      if is_digit c then digits_value (10 * acc + (Z.of_N c - 48)) r
      else None
  end.

Definition unsigned_value (s : QString) : option Z :=
  match s with
  | [] => None
  | _ => digits_value 0 s
  end.

Definition toInt (s : QString) : Z :=
  let body := trimmed s in
  let v :=
    match body with
    | 45%N :: r => Z.opp <$> unsigned_value r
    | 43%N :: r => unsigned_value r
    | _ => unsigned_value body
    end in
  match v with
  | Some z => if bool_decide (INT_MIN <= z <= INT_MAX) then z else 0
  | None => 0
  end.

(** ** Faults *)

(** Accesses the sources make without a range check.  An access outside the
    container has no defined result, and the run stops with a fault. *)
Inductive fault :=
| DaysOutOfRange (i : nat)
| LabelListOutOfRange (i : nat)
| StringListOutOfRange.

Inductive outcome (A : Type) :=
| Done (a : A)
| Fault (f : fault).
Arguments Done {A} a.
Arguments Fault {A} f.

#[global] Instance outcome_ret : MRet outcome := λ A a, Done a.
#[global] Instance outcome_bind : MBind outcome :=
  λ A B k m, match m with Done a => k a | Fault f => Fault f end.

#[global] Instance fault_eq_dec : EqDecision fault.
Proof. solve_decision. Defined.

(** ** JSON values *)

Inductive QJsonValue :=
| Null
| Undefined
| Bool (b : bool)
| Double (d : Q)
| String (s : QString)
| Array (a : list QJsonValue)
| Object (o : gmap QString QJsonValue).

(** What [QJsonDocument::fromJson] hands back: a null document for bytes that
    are not a JSON text, otherwise an array or an object document. *)
Inductive QJsonDocument :=
| NullDocument
| ArrayDocument (a : list QJsonValue)
| ObjectDocument (o : gmap QString QJsonValue).

(** A payload is what its bytes parse to: [None] for bytes that are not valid
    JSON, [Some v] for the JSON text of [v].  A document holds an array or an
    object only, so a valid text with any other top-level value gives the
    null document as well. *)
Abbreviation QByteArray := (option QJsonValue).

Definition fromJson (rawData : QByteArray) : QJsonDocument :=
  match rawData with
  | Some (Object o) => ObjectDocument o
  | Some (Array a) => ArrayDocument a
  | _ => NullDocument
  end.

Definition doc_isNull (d : QJsonDocument) : bool :=
  match d with NullDocument => true | _ => false end.
Definition doc_isObject (d : QJsonDocument) : bool :=
  match d with ObjectDocument _ => true | _ => false end.
Definition doc_isArray (d : QJsonDocument) : bool :=
  match d with ArrayDocument _ => true | _ => false end.
Definition doc_object (d : QJsonDocument) : gmap QString QJsonValue :=
  match d with ObjectDocument o => o | _ => ∅ end.
Definition doc_array (d : QJsonDocument) : list QJsonValue :=
  match d with ArrayDocument a => a | _ => [] end.

Definition isArray (v : QJsonValue) : bool :=
  match v with Array _ => true | _ => false end.
Definition isObject (v : QJsonValue) : bool :=
  match v with Object _ => true | _ => false end.

(** [toString()], [toObject()], [toArray()] fall back to the empty value of
    their type when the value has another type. *)
Definition toString (v : QJsonValue) : QString :=
  match v with String s => s | _ => [] end.
Definition toObject (v : QJsonValue) : gmap QString QJsonValue :=
  match v with Object o => o | _ => ∅ end.
Definition toArray (v : QJsonValue) : list QJsonValue :=
  match v with Array a => a | _ => [] end.

(** [object[key]] read as a value: a missing key reads as a value whose
    [toString()], [toObject()] and [toArray()] are empty. *)
Definition member (key : QString) (o : gmap QString QJsonValue) : QJsonValue :=
  default Undefined (o !! key).

Definition contains (key : QString) (o : gmap QString QJsonValue) : bool :=
  bool_decide (is_Some (o !! key)).

(** [value[key]] on a [QJsonValue] is [toObject()[key]]. *)
Definition value_member (key : QString) (v : QJsonValue) : QJsonValue :=
  member key (toObject v).

(** [array[i]] read as a value: [Undefined] past the end. *)
Definition element (i : nat) (a : list QJsonValue) : QJsonValue :=
  default Undefined (a !! i).

(** ** citycodeutils.h / citycodeutils.cpp *)

(** [class CityCodeUtils]: the table [CityMap].  [initCalls] is
    instrumentation: it counts the executions of [InitCityMap]. *)
Record CityCodeUtils := mkCityCodeUtils {
  CityMap : gmap QString QString;
  initCalls : nat
}.

(** [CityCodeUtils::CityCodeUtils()]: the table starts empty. *)
Definition CityCodeUtils_new : CityCodeUtils :=
  {| CityMap := ∅; initCalls := 0 |}.

Section CityCode.

(** The bundled resource [":/citycode.json"] as [readAll()] returns it; a
    resource that cannot be opened reads as empty bytes, which are not a
    JSON text. *)
Variable citycode_json : QByteArray.

(** The body of the [for (QJsonValue val : citys)] loop. *)
Definition insertCity (m : gmap QString QString) (val : QJsonValue)
  : gmap QString QString :=
  if isObject val then
    let cityName := toString (value_member (qs "city_name") val) in
    let cityCode := toString (value_member (qs "city_code") val) in
    <[cityName := cityCode]> m
  else m.

Definition InitCityMap (u : CityCodeUtils) : CityCodeUtils :=
  let rawData := citycode_json in
  let jsonDoc := fromJson rawData in
  {| CityMap :=
       if doc_isArray jsonDoc
       then foldl insertCity (CityMap u) (doc_array jsonDoc)
       else CityMap u;
     initCalls := S (initCalls u) |}.

Definition getCityCodeFromName (cityName : QString) (u : CityCodeUtils)
  : QString * CityCodeUtils :=
  let u := if decide (CityMap u = ∅) then InitCityMap u else u in
  match CityMap u !! cityName with
  | Some code => (code, u)
  | None =>
      let it := CityMap u !! (cityName ++ qs "市") in
      let it :=
        if it is None then CityMap u !! (cityName ++ qs "县") else it in
      let it :=
        if it is None then CityMap u !! (cityName ++ qs "区") else it in
      match it with
      | None => (qs "", u)
      | Some code => (code, u)
      end
  end.

(** The table a lookup works on: the stored one, or the freshly loaded one
    when the stored one is empty. *)
Definition tableAtLookup (u : CityCodeUtils) : gmap QString QString :=
  if decide (CityMap u = ∅) then CityMap (InitCityMap u) else CityMap u.

(** A run of lookups on one resolver instance, results in call order. *)
Fixpoint getCityCodes (names : list QString) (u : CityCodeUtils)
  : list QString * CityCodeUtils :=
  match names with
  | [] => ([], u)
  | n :: rest =>
      let '(code, u1) := getCityCodeFromName n u in
      let '(codes, u2) := getCityCodes rest u1 in
      (code :: codes, u2)
  end.

End CityCode.

(** ** day.h *)

(** Modelled from the spec: [day.h] is not among the sources at hand.  The
    record has the members that [widget.cpp] reads and writes, one per
    attribute of the spec's WeatherRecord, all of them strings. *)
Record Day := mkDay {
  mCity : QString;
  mDate : QString;
  mWeek : QString;
  mWeathType : QString;
  mTemp : QString;
  mTempLow : QString;
  mTempHigh : QString;
  mFx : QString;
  mFl : QString;
  mAirq : QString;
  mTips : QString;
  mHu : QString;
  mPm25 : QString
}.


(** Assignment to one member. *)
Definition set_mCity (v : QString) (d : Day) : Day :=
  mkDay v (mDate d) (mWeek d) (mWeathType d) (mTemp d) (mTempLow d)
    (mTempHigh d) (mFx d) (mFl d) (mAirq d) (mTips d) (mHu d) (mPm25 d).
Definition set_mDate (v : QString) (d : Day) : Day :=
  mkDay (mCity d) v (mWeek d) (mWeathType d) (mTemp d) (mTempLow d)
    (mTempHigh d) (mFx d) (mFl d) (mAirq d) (mTips d) (mHu d) (mPm25 d).
Definition set_mWeek (v : QString) (d : Day) : Day :=
  mkDay (mCity d) (mDate d) v (mWeathType d) (mTemp d) (mTempLow d)
    (mTempHigh d) (mFx d) (mFl d) (mAirq d) (mTips d) (mHu d) (mPm25 d).
Definition set_mWeathType (v : QString) (d : Day) : Day :=
  mkDay (mCity d) (mDate d) (mWeek d) v (mTemp d) (mTempLow d) (mTempHigh d)
    (mFx d) (mFl d) (mAirq d) (mTips d) (mHu d) (mPm25 d).
Definition set_mTemp (v : QString) (d : Day) : Day :=
  mkDay (mCity d) (mDate d) (mWeek d) (mWeathType d) v (mTempLow d)
    (mTempHigh d) (mFx d) (mFl d) (mAirq d) (mTips d) (mHu d) (mPm25 d).
Definition set_mTempLow (v : QString) (d : Day) : Day :=
  mkDay (mCity d) (mDate d) (mWeek d) (mWeathType d) (mTemp d) v (mTempHigh d)
    (mFx d) (mFl d) (mAirq d) (mTips d) (mHu d) (mPm25 d).
Definition set_mTempHigh (v : QString) (d : Day) : Day :=
  mkDay (mCity d) (mDate d) (mWeek d) (mWeathType d) (mTemp d) (mTempLow d) v
    (mFx d) (mFl d) (mAirq d) (mTips d) (mHu d) (mPm25 d).
Definition set_mFx (v : QString) (d : Day) : Day :=
  mkDay (mCity d) (mDate d) (mWeek d) (mWeathType d) (mTemp d) (mTempLow d)
    (mTempHigh d) v (mFl d) (mAirq d) (mTips d) (mHu d) (mPm25 d).
Definition set_mFl (v : QString) (d : Day) : Day :=
  mkDay (mCity d) (mDate d) (mWeek d) (mWeathType d) (mTemp d) (mTempLow d)
    (mTempHigh d) (mFx d) v (mAirq d) (mTips d) (mHu d) (mPm25 d).
Definition set_mAirq (v : QString) (d : Day) : Day :=
  mkDay (mCity d) (mDate d) (mWeek d) (mWeathType d) (mTemp d) (mTempLow d)
    (mTempHigh d) (mFx d) (mFl d) v (mTips d) (mHu d) (mPm25 d).
Definition set_mTips (v : QString) (d : Day) : Day :=
  mkDay (mCity d) (mDate d) (mWeek d) (mWeathType d) (mTemp d) (mTempLow d)
    (mTempHigh d) (mFx d) (mFl d) (mAirq d) v (mHu d) (mPm25 d).
Definition set_mHu (v : QString) (d : Day) : Day :=
  mkDay (mCity d) (mDate d) (mWeek d) (mWeathType d) (mTemp d) (mTempLow d)
    (mTempHigh d) (mFx d) (mFl d) (mAirq d) (mTips d) v (mPm25 d).
Definition set_mPm25 (v : QString) (d : Day) : Day :=
  mkDay (mCity d) (mDate d) (mWeek d) (mWeathType d) (mTemp d) (mTempLow d)
    (mTempHigh d) (mFx d) (mFl d) (mAirq d) (mTips d) (mHu d) v.

(** ** widget.h: the state of the window *)

(** A [QLabel] as far as the program touches it: its text, the resource path
    of its pixmap, its style sheet, its maximum size and its geometry. *)
Record QLabel := mkQLabel {
  text : QString;
  pixmap : QString;
  styleSheet : QString;
  maximumSize : option (Z * Z);
  x : Z;
  width : Z
}.

Definition setText (s : QString) (l : QLabel) : QLabel :=
  mkQLabel s (pixmap l) (styleSheet l) (maximumSize l) (x l) (width l).
Definition setPixmap (p : QString) (l : QLabel) : QLabel :=
  mkQLabel (text l) p (styleSheet l) (maximumSize l) (x l) (width l).
Definition setStyleSheet (s : QString) (l : QLabel) : QLabel :=
  mkQLabel (text l) (pixmap l) s (maximumSize l) (x l) (width l).
Definition setMaximumSize (w h : Z) (l : QLabel) : QLabel :=
  mkQLabel (text l) (pixmap l) (styleSheet l) (Some (w, h)) (x l) (width l).

(** The members of [Ui::Widget] used outside the label lists: the labels of
    today's summary, the text of the city line edit and the heights of the
    two chart widgets. *)
Record Ui := mkUi {
  labelCurrentDate : QLabel;
  labelCity : QLabel;
  labelTmp : QLabel;
  labelTempRange : QLabel;
  labelWeatherType : QLabel;
  labelWeatherIcon : QLabel;
  labelGanbao : QLabel;
  labelFXType : QLabel;
  labelFXData : QLabel;
  labelPM25Data : QLabel;
  labelShiDuData : QLabel;
  labelAirQualityData : QLabel;
  lineEditCity : QString;
  widget0404_height : Z;
  widget0405_height : Z
}.

(** What the window does to the outside world, in order. *)
Inductive Effect :=
| HttpGet (url : QString)
| MessageBox (title body : QString)
| Repaint.

#[global] Instance Effect_eq_dec : EqDecision Effect.
Proof. solve_decision. Defined.

(** [class Widget].  The label lists hold the labels [labelDay0] ..
    [labelDay5] and so on of the form; [log] records the effects. *)
Record Widget := mkWidget {
  days : list Day;
  mDateList : list QLabel;
  mWeekList : list QLabel;
  mIconList : list QLabel;
  mWeaTypeList : list QLabel;
  mAirqList : list QLabel;
  mFxList : list QLabel;
  mFlList : list QLabel;
  ui : Ui;
  strUrl : QString;
  cityCodeUtils : CityCodeUtils;
  mTypeMap : gmap QString QString;
  log : list Effect
}.

Definition set_days (v : list Day) (w : Widget) : Widget :=
  mkWidget v (mDateList w) (mWeekList w) (mIconList w) (mWeaTypeList w)
    (mAirqList w) (mFxList w) (mFlList w) (ui w) (strUrl w) (cityCodeUtils w)
    (mTypeMap w) (log w).
Definition set_ui (v : Ui) (w : Widget) : Widget :=
  mkWidget (days w) (mDateList w) (mWeekList w) (mIconList w) (mWeaTypeList w)
    (mAirqList w) (mFxList w) (mFlList w) v (strUrl w) (cityCodeUtils w)
    (mTypeMap w) (log w).
Definition set_strUrl (v : QString) (w : Widget) : Widget :=
  mkWidget (days w) (mDateList w) (mWeekList w) (mIconList w) (mWeaTypeList w)
    (mAirqList w) (mFxList w) (mFlList w) (ui w) v (cityCodeUtils w)
    (mTypeMap w) (log w).
Definition set_cityCodeUtils (v : CityCodeUtils) (w : Widget) : Widget :=
  mkWidget (days w) (mDateList w) (mWeekList w) (mIconList w) (mWeaTypeList w)
    (mAirqList w) (mFxList w) (mFlList w) (ui w) (strUrl w) v
    (mTypeMap w) (log w).
Definition set_mTypeMap (v : gmap QString QString) (w : Widget) : Widget :=
  mkWidget (days w) (mDateList w) (mWeekList w) (mIconList w) (mWeaTypeList w)
    (mAirqList w) (mFxList w) (mFlList w) (ui w) (strUrl w) (cityCodeUtils w)
    v (log w).
(** One more effect at the end of the log. *)
Definition emit (e : Effect) (w : Widget) : Widget :=
  mkWidget (days w) (mDateList w) (mWeekList w) (mIconList w) (mWeaTypeList w)
    (mAirqList w) (mFxList w) (mFlList w) (ui w) (strUrl w) (cityCodeUtils w)
    (mTypeMap w) (log w ++ [e]).

(** The user types [s] into the city line edit. *)
Definition typeCity (s : QString) (w : Widget) : Widget :=
  let u := ui w in
  set_ui
    (mkUi (labelCurrentDate u) (labelCity u) (labelTmp u) (labelTempRange u)
       (labelWeatherType u) (labelWeatherIcon u) (labelGanbao u)
       (labelFXType u) (labelFXData u) (labelPM25Data u) (labelShiDuData u)
       (labelAirQualityData u) s (widget0404_height u) (widget0405_height u))
    w.

(** Unchecked element accesses. *)
Definition day_at (ds : list Day) (i : nat) : outcome Day :=
  match ds !! i with
  | Some d => Done d
  | None => Fault (DaysOutOfRange i)
  end.

(** [list[i]->set...(...)] on a list of labels. *)
Definition label_at (l : list QLabel) (i : nat) (f : QLabel → QLabel)
  : outcome (list QLabel) :=
  match l !! i with
  | Some lb => Done (<[i := f lb]> l)
  | None => Fault (LabelListOutOfRange i)
  end.

Definition label_get (l : list QLabel) (i : nat) : outcome QLabel :=
  match l !! i with
  | Some lb => Done lb
  | None => Fault (LabelListOutOfRange i)
  end.

(** [QStringList::at(i)]. *)
Definition string_at (l : list QString) (i : nat) : outcome QString :=
  match l !! i with
  | Some s => Done s
  | None => Fault StringListOutOfRange
  end.

(** [map[key]] on a [QMap] that is not const: a missing key is first
    inserted with an empty value. *)
Definition typeMap_at (key : QString) (m : gmap QString QString)
  : QString * gmap QString QString :=
  match m !! key with
  | Some v => (v, m)
  | None => ([], <[key := []]> m)
  end.

(** [for (int i = from; i < from + n; i++) body]. *)
Fixpoint for_range {St : Type} (from n : nat)
  (body : nat → St → outcome St) (s : St) : outcome St :=
  match n with
  | O => Done s
  | S n' => s' ← body from s; for_range (S from) n' body s'
  end.

(** [days[i].member = ...]: the array has no range check. *)
Definition days_assign (ds : list Day) (i : nat) (f : Day → Day)
  : outcome (list Day) :=
  match ds !! i with
  | Some d => Done (<[i := f d]> ds)
  | None => Fault (DaysOutOfRange i)
  end.

(** ** widget.cpp *)

(** The static request string set in the constructor. *)
Definition baseUrl : QString :=
  qs "http://gfeljm.tianqiapi.com/api?unescape=1&version=v9&appid=29132936&appsecret=JV3FYmaV".

(** The [mTypeMap.insert] calls of the constructor, in source order. *)
Definition typeTable : list (QString * QString) :=
  [ (qs "暴雪", qs ":/type/BaoXue.png");
    (qs "暴雨", qs ":/type/BaoYu.png");
    (qs "暴雨到大暴雨", qs ":/type/BaoYuDaoDaBaoYu.png");
    (qs "大暴雨", qs ":/type/DaBaoYu.png");
    (qs "大暴雨到特大暴雨", qs ":/type/DaBaoYuDaoTeDaBaoYu.png");
    (qs "大到暴雪", qs ":/type/DaDaoBaoXue.png");
    (qs "大雪", qs ":/type/DaXue.png");
    (qs "大雨", qs ":/type/DaYu.png");
    (qs "冻雨", qs ":/type/DongYu.png");
    (qs "多云", qs ":/type/DuoYun.png");
    (qs "浮沉", qs ":/type/FuChen.png");
    (qs "雷阵雨", qs ":/type/LeiZhenYu.png");
    (qs "雷阵雨伴有冰雹", qs ":/type/LeiZhenYuBanYouBingBao.png");
    (qs "霾", qs ":/type/Mai.png");
    (qs "强沙尘暴", qs ":/type/QiangShaChenBao.png");
    (qs "晴", qs ":/type/Qing.png");
    (qs "沙尘暴", qs ":/type/ShaChenBao.png");
    (qs "特大暴雨", qs ":/type/TeDaBaoYu.png");
    (qs "undefined", qs ":/type/undefined.png");
    (qs "雾", qs ":/type/Wu.png");
    (qs "小到中雪", qs ":/type/XiaoDaoZhongXue.png");
    (qs "小到中雨", qs ":/type/XiaoDaoZhongYu.png");
    (qs "小雪", qs ":/type/XiaoXue.png");
    (qs "小雨", qs ":/type/XiaoYu.png");
    (qs "雪", qs ":/type/Xue.png");
    (qs "扬沙", qs ":/type/YangSha.png");
    (qs "阴", qs ":/type/Yin.png");
    (qs "雨", qs ":/type/Yu.png");
    (qs "雨夹雪", qs ":/type/YuJiaXue.png");
    (qs "阵雪", qs ":/type/ZhenXue.png");
    (qs "阵雨", qs ":/type/ZhenYu.png");
    (qs "中到大雪", qs ":/type/ZhongDaoDaXue.png");
    (qs "中到大雨", qs ":/type/ZhongDaoDaYu.png");
    (qs "中雪", qs ":/type/ZhongXue.png");
    (qs "中雨", qs ":/type/ZhongYu.png") ].

(** [Widget::Widget]: [form] is the summary part of the form as [setupUi]
    builds it, the seven lists are its numbered labels ([labelDay0] ..
    [labelDay5], [labelDate0] .. and so on).  The constructor stores the
    static request string, issues the first GET with it and fills the icon
    table; the seven-element [days] array is default-constructed, and
    [day0] is the value the constructor of [Day] (in [day.h], not at hand)
    gives to each element. *)
Definition Widget_new (day0 : Day) (form : Ui)
  (labelDay labelDate labelWeatherkon labelWeatherTypeDate labelAirQ labelFX
     labelFL : list QLabel) : Widget :=
  let strUrl := baseUrl in
  {| days := replicate 7 day0;
     mWeekList := labelDay;
     mDateList := labelDate;
     mIconList := labelWeatherkon;
     mWeaTypeList := labelWeatherTypeDate;
     mAirqList := labelAirQ;
     mFxList := labelFX;
     mFlList := labelFL;
     ui := form;
     strUrl := strUrl;
     cityCodeUtils := CityCodeUtils_new;
     mTypeMap := foldl (λ m kv, <[kv.1 := kv.2]> m) ∅ typeTable;
     log := [HttpGet strUrl] |}.

(** The [if (airQ == ...)] cascade of [updateUI] for one badge. *)
Definition airqStyle (airQ : QString) (lb : QLabel) : QLabel :=
  let lb :=
    if bool_decide (airQ = qs "优") then
      setStyleSheet (qs "background-color: rgb(150,213,32);border-radius:7px;color:rgb(255,255,255)") lb
    else lb in
  let lb :=
    if bool_decide (airQ = qs "良") then
      setStyleSheet (qs "background-color: rgb(255,170,127);border-radius:7px;color:rgb(255,255,255)") lb
    else lb in
  let lb :=
    if bool_decide (airQ = qs "轻度") then
      setStyleSheet (qs "background-color: rgb(255,199,199);border-radius:7px;color:rgb(255,255,255)") lb
    else lb in
  let lb :=
    if bool_decide (airQ = qs "中度") then
      setStyleSheet (qs "background-color: rgb(255,17,17);border-radius:7px;color:rgb(255,255,255)") lb
    else lb in
  if bool_decide (airQ = qs "重度") then
    setStyleSheet (qs "background-color: rgb(153,0,0);border-radius:7px;color:rgb(255,255,255)") lb
  else lb.

(** The code unit of ["-"], the separator of [split("-")]. *)
Definition dash : QChar := 45%N.

(** One round of the [for (int i = 0; i < 6; i++)] loop of [updateUI]. *)
Definition updateUI_day (i : nat) (w : Widget) : outcome Widget :=
  d ← day_at (days w) i;
  wl ← label_at (mWeekList w) i (setText (mWeek d));
  wl ← label_at wl 0 (setText (qs "今天"));
  wl ← label_at wl 1 (setText (qs "明天"));
  wl ← label_at wl 2 (setText (qs "后天"));
  let dayList := split dash (mDate d) in
  p1 ← string_at dayList 1;
  p2 ← string_at dayList 2;
  dl ← label_at (mDateList w) i (setText (p1 ++ qs "-" ++ p2));
  let index := indexOf (qs "转") (mWeathType d) in
  let '(pixmap, tm) :=
    if bool_decide (index ≠ -1)
    then typeMap_at (right index (mWeathType d)) (mTypeMap w)
    else typeMap_at (mWeathType d) (mTypeMap w) in
  let '(pixmap, tm) := typeMap_at (mWeathType d) tm in
  (* pixmap = pixmap.scaled(mIconList[i]->size(), ...): the scaled copy stays
     in the local variable and is not shown *)
  _ ← label_get (mIconList w) i;
  il ← label_at (mIconList w) i (setMaximumSize 78 62);
  let '(icon, tm) := typeMap_at (mWeathType d) tm in
  il ← label_at il i (setPixmap icon);
  tl ← label_at (mWeaTypeList w) i (setText (mWeathType d));
  let airQ := mAirq d in
  al ← label_at (mAirqList w) i (setText airQ);
  al ← label_at al i (airqStyle airQ);
  fx ← label_at (mFxList w) i (setText (mFx d));
  fl ← label_at (mFlList w) i (setText (mFl d));
  Done (mkWidget (days w) dl wl il tl al fx fl (ui w) (strUrl w)
          (cityCodeUtils w) tm (log w)).

Definition updateUI (w : Widget) : outcome Widget :=
  d0 ← day_at (days w) 0;
  let u := ui w in
  let '(icon0, tm) := typeMap_at (mWeathType d0) (mTypeMap w) in
  let u' :=
    {| labelCurrentDate :=
         setText (mDate d0 ++ qs "  " ++ mWeek d0) (labelCurrentDate u);
       labelCity := setText (mCity d0 ++ qs "市") (labelCity u);
       labelTmp := setText (mTemp d0 ++ qs "℃") (labelTmp u);
       labelTempRange :=
         setText (mTempLow d0 ++ qs "℃" ++ qs "~" ++ mTempHigh d0 ++ qs "℃")
           (labelTempRange u);
       labelWeatherType := setText (mWeathType d0) (labelWeatherType u);
       labelWeatherIcon := setPixmap icon0 (labelWeatherIcon u);
       labelGanbao := setText (mTips d0) (labelGanbao u);
       labelFXType := setText (mFx d0) (labelFXType u);
       labelFXData := setText (mFl d0) (labelFXData u);
       labelPM25Data := setText (mPm25 d0) (labelPM25Data u);
       labelShiDuData := setText (mHu d0) (labelShiDuData u);
       labelAirQualityData := setText (mAirq d0) (labelAirQualityData u);
       lineEditCity := lineEditCity u;
       widget0404_height := widget0404_height u;
       widget0405_height := widget0405_height u |} in
  w ← for_range 0 6 updateUI_day (set_mTypeMap tm (set_ui u' w));
  Done (emit Repaint w).

(** The assignments of one round of the parse loop to [days[i]]. *)
Definition parseDay (obj : gmap QString QJsonValue) (d : Day) : Day :=
  let d := set_mDate (toString (member (qs "date") obj)) d in
  let d := set_mWeek (toString (member (qs "week") obj)) d in
  let d := set_mWeathType (toString (member (qs "wea") obj)) d in
  let d := set_mTemp (toString (member (qs "tem") obj)) d in
  let d := set_mTempLow (toString (member (qs "tem2") obj)) d in
  let d := set_mTempHigh (toString (member (qs "tem1") obj)) d in
  let d :=
    set_mFx (toString (element 0 (toArray (member (qs "win") obj)))) d in
  let d := set_mFl (toString (member (qs "win_speed") obj)) d in
  let d := set_mAirq (toString (member (qs "air_level") obj)) d in
  let d :=
    set_mTips
      (toString
         (member (qs "desc")
            (toObject (element 3 (toArray (member (qs "index") obj)))))) d in
  set_mHu (toString (member (qs "humidity") obj)) d.

(** [for (int i = 0; i < weaArray.size(); i++)], entered at index [i] with
    the elements from [i] on. *)
Fixpoint parseDays (i : nat) (weaArray : list QJsonValue) (ds : list Day)
  : outcome (list Day) :=
  match weaArray with
  | [] => Done ds
  | v :: rest =>
      let obj := toObject v in
      ds ← days_assign ds i (parseDay obj);
      parseDays (S i) rest ds
  end.

Definition parseWeatherJsonDataNew (rawData : QByteArray) (w : Widget)
  : outcome Widget :=
  let jsonDoc := fromJson rawData in
  if negb (doc_isNull jsonDoc) && doc_isObject jsonDoc then
    let jsonRoot := doc_object jsonDoc in
    ds ← days_assign (days w) 0
           (set_mCity (toString (member (qs "city") jsonRoot)));
    ds ← days_assign ds 0
           (set_mPm25
              (toString
                 (member (qs "pm25") (toObject (member (qs "aqi") jsonRoot)))));
    if contains (qs "data") jsonRoot && isArray (member (qs "data") jsonRoot)
    then
      let weaArray := toArray (member (qs "data") jsonRoot) in
      ds ← parseDays 0 weaArray ds;
      updateUI (set_days ds w)
    else Done (set_days ds w)
  else Done w.

(** *** The trend charts *)

Record QPoint := mkQPoint { px : Z; py : Z }.

#[global] Instance QPoint_inhabited : Inhabited QPoint :=
  populate (mkQPoint 0 0).
#[global] Instance QPoint_eq_dec : EqDecision QPoint.
Proof. solve_decision. Defined.

Inductive GlobalColor := yellow | blue.

(** What a chart routine asks of its [QPainter]. *)
Inductive PaintCmd :=
| SetAntialiasing
| SetPen (c : GlobalColor)
| SetBrush (c : GlobalColor)
| DrawEllipse (center : QPoint) (rx ry : Z)
| DrawText (tx ty : Z) (s : QString)
| DrawLine (p q : QPoint).

(** [for (i < 6) sum += days[i].m.toInt()]: one round. *)
Definition sumTemp (m : Day → QString) (ds : list Day) (i : nat) (sum : Z)
  : outcome Z :=
  d ← day_at ds i;
  Done (int_add sum (toInt (m d))).

(** [mAirqList[i]->x() + mAirqList[i]->width() / 2]. *)
Definition hcenter (lb : QLabel) : Z := int_add (x lb) (int_div (width lb) 2).

(** The second loop, one round: the point of day [i], its dot and its
    caption. *)
Definition plotTemp (m : Day → QString) (w : Widget) (middle ave : Z)
  (i : nat) (acc : list QPoint * list PaintCmd)
  : outcome (list QPoint * list PaintCmd) :=
  lb ← label_get (mAirqList w) i;
  d ← day_at (days w) i;
  let ptx := hcenter lb in
  let offSet := int_mul (int_sub (toInt (m d)) ave) 3 in
  let pty := int_sub middle offSet in
  let p := mkQPoint ptx pty in
  Done (acc.1 ++ [p],
        acc.2 ++ [DrawEllipse p 3 3;
                  DrawText (int_sub ptx 10) (int_sub pty 10) (m d ++ qs "°")]).

(** The common body of [drawTempLineHigh] and [drawTempLineLow]: [m] is the
    member that is plotted, [c] the pen and brush colour, [height] the height
    of the chart widget.  The result is the local array [points] and the
    painter calls in order. *)
Definition drawTempLine (m : Day → QString) (c : GlobalColor) (height : Z)
  (w : Widget) : outcome (list QPoint * list PaintCmd) :=
  let setup := [SetAntialiasing; SetPen c; SetBrush c] in
  let middle := int_div height 2 in
  sum ← for_range 0 6 (sumTemp m (days w)) 0;
  let ave := int_div sum 6 in
  '(points, cmds) ← for_range 0 6 (plotTemp m w middle ave) ([], setup);
  Done (points,
        cmds ++ ((λ i, DrawLine (points !!! i) (points !!! S i)) <$> seq 0 5)).

Definition drawTempLineHigh (w : Widget)
  : outcome (list QPoint * list PaintCmd) :=
  drawTempLine mTempHigh yellow (widget0404_height (ui w)) w.

Definition drawTempLineLow (w : Widget)
  : outcome (list QPoint * list PaintCmd) :=
  drawTempLine mTempLow blue (widget0405_height (ui w)) w.

(** *** The reply handler *)

Inductive NetworkError :=
| NoError
| TransportError (code : positive).

#[global] Instance NetworkError_eq_dec : EqDecision NetworkError.
Proof. solve_decision. Defined.

(** A finished [QNetworkReply]: its error, its HTTP status attribute read
    with [toInt()] and the bytes [readAll()] returns. *)
Record QNetworkReply := mkReply {
  error : NetworkError;
  HttpStatusCodeAttribute : Z;
  readAll : QByteArray
}.

Definition errorBox (body : QString) : Effect := MessageBox (qs "错误") body.

Definition readHttpReply (reply : QNetworkReply) (w : Widget)
  : outcome Widget :=
  let resCode := HttpStatusCodeAttribute reply in
  if bool_decide (error reply = NoError) && bool_decide (resCode = 200) then
    let data := readAll reply in
    parseWeatherJsonDataNew data w
  else
    Done (emit (errorBox (qs "网络请求失败")) w).

(** *** The submit slot *)

Section Submit.

Variable citycode_json : QByteArray.

(** [cityCode != NULL] compares with the null string, which equals the
    empty string. *)
Definition on_LineEditCity_clicked (w : Widget) : Widget :=
  let cityNameFromUser := lineEditCity (ui w) in
  let '(cityCode, utils) :=
    getCityCodeFromName citycode_json cityNameFromUser (cityCodeUtils w) in
  let w := set_cityCodeUtils utils w in
  if bool_decide (cityCode ≠ []) then
    let w := set_strUrl (strUrl w ++ (qs "&cityid=" ++ cityCode)) w in
    emit (HttpGet (strUrl w)) w
  else
    emit (errorBox (qs "请输入正确的城市名称")) w.

Definition on_lineEditCity_returnPressed (w : Widget) : Widget :=
  on_LineEditCity_clicked w.

(** The user submits the names of [queries] one after the other. *)
Definition submit (cityQuery : QString) (w : Widget) : Widget :=
  on_LineEditCity_clicked (typeCity cityQuery w).

Definition submitAll (queries : list QString) (w : Widget) : Widget :=
  foldl (λ w q, submit q w) w queries.

End Submit.

(** The URLs of the GET requests in a log, oldest first. *)
Definition requestUrls (l : list Effect) : list QString :=
  omap (λ e, match e with HttpGet u => Some u | _ => None end) l.

(** The title and text of the message boxes in a log, oldest first. *)
Definition messageBoxes (l : list Effect) : list (QString * QString) :=
  omap (λ e, match e with MessageBox t b => Some (t, b) | _ => None end) l.

(** *** The layout as the spec words it (4.3), over the integers *)

(** [temps[0] + ... + temps[5]]. *)
Definition sum_temps (temps : list Z) : Z := foldr Z.add 0 temps.

(** [average = sum(temps) / 6], truncating. *)
Definition spec_average (temps : list Z) : Z := Z.quot (sum_temps temps) 6.

(** [y = chartHeight/2 - (temps[i] - average) * 3]. *)
Definition spec_y (temps : list Z) (chartHeight t : Z) : Z :=
  Z.quot chartHeight 2 - (t - spec_average temps) * 3.

(** *** Conditions under which the refresh runs to its end *)

(** Each of the first six stored dates has at least three "-"-separated
    parts, so that [dayList.at(1)] and [dayList.at(2)] exist. *)
Definition datesSplit (ds : list Day) : Prop :=
  ∀ i d, (i < 6)%nat → ds !! i = Some d →
         (3 ≤ length (split dash (mDate d)))%nat.

(** The window has its six columns of labels. *)
Definition sixColumns (w : Widget) : Prop :=
  (6 ≤ length (mDateList w))%nat ∧ (6 ≤ length (mWeekList w))%nat
  ∧ (6 ≤ length (mIconList w))%nat ∧ (6 ≤ length (mWeaTypeList w))%nat
  ∧ (6 ≤ length (mAirqList w))%nat ∧ (6 ≤ length (mFxList w))%nat
  ∧ (6 ≤ length (mFlList w))%nat.

(** The value of a run that ended without a fault. *)
Definition result {A} (r : outcome A) : option A :=
  match r with Done a => Some a | Fault _ => None end.

(** ** The dataset read as a table *)

(** The name and code an element of the dataset array contributes: none when
    the element is not an object. *)
Definition cityEntry (val : QJsonValue) : option (QString * QString) :=
  if isObject val then
    Some (toString (value_member (qs "city_name") val),
          toString (value_member (qs "city_code") val))
  else None.

(** The code the dataset gives to a name: the code of the last object of the
    array that carries the name. *)
Definition datasetCode (citys : list QJsonValue) (name : QString)
  : option QString :=
  last (omap (λ val,
                match cityEntry val with
                | Some (n, c) => if decide (n = name) then Some c else None
                | None => None
                end) citys).

(** The parameters a run of submissions leaves in the request string: one
    ["&cityid=<code>"] for every code that is not empty, in order. *)
Definition cityParams (codes : list QString) : QString :=
  concat ((λ c, qs "&cityid=" ++ c) <$> filter (λ c, c ≠ []) codes).

(** ** What the label refresh shows *)

(** The three assignments to [mWeekList[0]], [[1]] and [[2]] that every
    round of the refresh loop makes. *)
Definition weekFixed (wl : list QLabel) : list QLabel :=
  alter (setText (qs "后天")) 2%nat
    (alter (setText (qs "明天")) 1%nat
       (alter (setText (qs "今天")) 0%nat wl)).

(** The caption of weekday label [j] after a refresh. *)
Definition weekText (ds : list Day) (j : nat) : QString :=
  match j with
  | 0%nat => qs "今天"
  | 1%nat => qs "明天"
  | 2%nat => qs "后天"
  | _ => default [] (mWeek <$> ds !! j)
  end.

(** The caption of a date label: the second and third "-"-separated parts
    of the stored date. *)
Definition dateText (d : Day) : QString :=
  default [] (split dash (mDate d) !! 1%nat) ++ qs "-"
  ++ default [] (split dash (mDate d) !! 2%nat).

(** What the refresh does to the label of a column, list by list; [M] is
    the icon table before the refresh. *)
Definition shownDate (d : Day) (lb : QLabel) : QLabel :=
  setText (dateText d) lb.
Definition shownIcon (M : gmap QString QString) (d : Day) (lb : QLabel)
  : QLabel :=
  setPixmap (default [] (M !! mWeathType d)) (setMaximumSize 78 62 lb).
Definition shownType (d : Day) (lb : QLabel) : QLabel :=
  setText (mWeathType d) lb.
Definition shownAirq (d : Day) (lb : QLabel) : QLabel :=
  airqStyle (mAirq d) (setText (mAirq d) lb).
Definition shownFx (d : Day) (lb : QLabel) : QLabel := setText (mFx d) lb.
Definition shownFl (d : Day) (lb : QLabel) : QLabel := setText (mFl d) lb.

(** Column [j] of a list after the rounds [i .. i+n-1]: the label of a
    column in that range shows its day, the others are as before. *)
Definition columnAfter (i n : nat) (ds : list Day) (g : Day → QLabel → QLabel)
  (l : list QLabel) (j : nat) : option QLabel :=
  if decide (i ≤ j < i + n)%nat
  then match ds !! j with
       | Some d => g d <$> l !! j
       | None => l !! j
       end
  else l !! j.

(** The weekday labels after the rounds [i .. i+n-1] ([n] not zero). *)
Definition weekAfter (i n : nat) (ds : list Day) (l : list QLabel) (j : nat)
  : option QLabel :=
  if decide (j < 3 ∨ i ≤ j < i + n)%nat
  then setText (weekText ds j) <$> l !! j
  else l !! j.

(** The style sheet of an air-quality badge with a known level. *)
Definition airqColour (airQ : QString) : option QString :=
  if decide (airQ = qs "优") then
    Some (qs "background-color: rgb(150,213,32);border-radius:7px;color:rgb(255,255,255)")
  else if decide (airQ = qs "良") then
    Some (qs "background-color: rgb(255,170,127);border-radius:7px;color:rgb(255,255,255)")
  else if decide (airQ = qs "轻度") then
    Some (qs "background-color: rgb(255,199,199);border-radius:7px;color:rgb(255,255,255)")
  else if decide (airQ = qs "中度") then
    Some (qs "background-color: rgb(255,17,17);border-radius:7px;color:rgb(255,255,255)")
  else if decide (airQ = qs "重度") then
    Some (qs "background-color: rgb(153,0,0);border-radius:7px;color:rgb(255,255,255)")
  else None.

(** ** Forecast payloads *)

(** The day-object that carries the members of a record, in the format the
    parser reads: the wind direction is the first element of [win], the tip
    is the [desc] of the fourth element of [index]. *)
Definition dayRecordObject (r : Day) : gmap QString QJsonValue :=
  list_to_map
    [ (qs "date", String (mDate r)); (qs "week", String (mWeek r));
      (qs "wea", String (mWeathType r)); (qs "tem", String (mTemp r));
      (qs "tem2", String (mTempLow r)); (qs "tem1", String (mTempHigh r));
      (qs "win", Array [String (mFx r)]);
      (qs "win_speed", String (mFl r)); (qs "air_level", String (mAirq r));
      (qs "index",
       Array [Null; Null; Null;
              Object (list_to_map [(qs "desc", String (mTips r))])]);
      (qs "humidity", String (mHu r)) ].

(** A string member of a JSON object: the empty string when the key is
    missing or holds a value that is not a string. *)
Definition stringMember (key : string) (obj : gmap QString QJsonValue)
  : QString :=
  match obj !! qs key with
  | Some (String s) => s
  | _ => []
  end.

(** The members the parse loop reads as plain strings, with the member of
    [Day] each one goes to. *)
Definition plainMembers : list (string * (Day → QString)) :=
  [ ("date", mDate); ("week", mWeek); ("wea", mWeathType); ("tem", mTemp);
    ("tem2", mTempLow); ("tem1", mTempHigh); ("win_speed", mFl);
    ("air_level", mAirq); ("humidity", mHu) ].

(** ** The charts, command by command *)

(** The point of a day in a chart whose mid-height is [middle] and whose
    average is [ave]. *)
Definition plotted (m : Day → QString) (middle ave : Z) (lb : QLabel)
  (d : Day) : QPoint :=
  mkQPoint (hcenter lb)
    (int_sub middle (int_mul (int_sub (toInt (m d)) ave) 3)).

(** The dot and the caption of a point. *)
Definition dotAndCaption (m : Day → QString) (p : QPoint) (d : Day)
  : list PaintCmd :=
  [ DrawEllipse p 3 3;
    DrawText (int_sub (px p) 10) (int_sub (py p) 10) (m d ++ qs "°") ].

(** ** The window over a run of events *)

(** What the event loop delivers to the window: a submission of the line
    edit, or a finished reply. *)
Inductive Action :=
| SubmitCity (cityQuery : QString)
| ReplyFinished (reply : QNetworkReply).

Definition handle (citycode_json : QByteArray) (a : Action) (w : Widget)
  : outcome Widget :=
  match a with
  | SubmitCity q => Done (submit citycode_json q w)
  | ReplyFinished reply => readHttpReply reply w
  end.

Fixpoint handleAll (citycode_json : QByteArray) (actions : list Action)
  (w : Widget) : outcome Widget :=
  match actions with
  | [] => Done w
  | a :: rest =>
      w' ← handle citycode_json a w; handleAll citycode_json rest w'
  end.

(** What every handler keeps: the seven stored records, the six columns,
    and the request string as the URL of the latest GET, starting with the
    static string. *)
Definition steady (w : Widget) : Prop :=
  length (days w) = 7%nat
  ∧ sixColumns w
  ∧ last (requestUrls (log w)) = Some (strUrl w)
  ∧ baseUrl `prefix_of` strUrl w.

(** ** Dragging the window *)

Inductive MouseButton := LeftButton | RightButton | OtherButton.

#[global] Instance MouseButton_eq_dec : EqDecision MouseButton.
Proof. solve_decision. Defined.

(** A [QMouseEvent] as the handlers read it. *)
Record QMouseEvent := mkMouseEvent {
  button : MouseButton;
  globalPos : QPoint
}.

(** The part of the window the mouse handlers touch: its position on the
    screen, the member [mOffset], and the screen positions at which the
    quit menu has been opened. *)
Record Frame := mkFrame {
  pos : QPoint;
  mOffset : QPoint;
  menuExecs : list QPoint
}.

(** [QPoint - QPoint]: coordinate by coordinate, in [int]. *)
Definition QPoint_sub (p q : QPoint) : QPoint :=
  mkQPoint (int_sub (px p) (px q)) (int_sub (py p) (py q)).

(** [Widget::mousePressEvent]; [cursor] is what [QCursor::pos()] returns
    when the menu opens. *)
Definition mousePressEvent (cursor : QPoint) (event : QMouseEvent)
  (f : Frame) : Frame :=
  let f :=
    if decide (button event = RightButton)
    then mkFrame (pos f) (mOffset f) (menuExecs f ++ [cursor])
    else f in
  if decide (button event = LeftButton)
  then mkFrame (pos f) (QPoint_sub (globalPos event) (pos f)) (menuExecs f)
  else f.

(** [Widget::mouseMoveEvent]: [move(event->globalPos() - mOffset)]. *)
Definition mouseMoveEvent (event : QMouseEvent) (f : Frame) : Frame :=
  mkFrame (QPoint_sub (globalPos event) (mOffset f)) (mOffset f)
    (menuExecs f).

(** ** Sample data *)

(** A JSON object written as a list of members. *)
Definition members (l : list (string * QJsonValue))
  : gmap QString QJsonValue :=
  list_to_map (prod_map qs id <$> l).

Definition object (l : list (string * QJsonValue)) : QJsonValue :=
  Object (members l).

Definition str (s : string) : QJsonValue := String (qs s).

(** A small city dataset in the format of [citycode.json]. *)
Definition sampleCities : QByteArray :=
  Some (Array
    [ object [("city_name", str "北京市"); ("city_code", str "101010100")];
      object [("city_name", str "上海市"); ("city_code", str "101020100")];
      object [("city_name", str "桐庐县"); ("city_code", str "101210103")];
      object [("city_name", str "朝阳区"); ("city_code", str "101010300")];
      object [("city_name", str "朝阳市"); ("city_code", str "101071201")];
      object [("city_name", str "Beijing"); ("city_code", str "101010100")] ]).

(** A dataset that is not a JSON array: the load inserts nothing. *)
Definition brokenCities : QByteArray := Some (object []).

(** A form with empty labels; the numbered labels of column [i] sit at
    [x = 10 + 90 i] and are 80 wide, the chart widgets are 150 high. *)
Definition blankLabel : QLabel := mkQLabel [] [] [] None 0 0.

Definition columnLabel (i : nat) : QLabel :=
  mkQLabel [] [] [] None (10 + 90 * Z.of_nat i) 80.

Definition sampleForm : Ui :=
  mkUi blankLabel blankLabel blankLabel blankLabel blankLabel blankLabel
    blankLabel blankLabel blankLabel blankLabel blankLabel blankLabel
    [] 150 150.

Definition sampleColumn : list QLabel := columnLabel <$> seq 0 6.

(** A record with every member empty. *)
Definition emptyDay : Day :=
  mkDay [] [] [] [] [] [] [] [] [] [] [] [] [].

(** A window right after construction, with [emptyDay] in every element of
    [days]. *)
Definition sampleWidget : Widget :=
  Widget_new emptyDay sampleForm sampleColumn sampleColumn sampleColumn
    sampleColumn sampleColumn sampleColumn sampleColumn.

(** One element of the [data] array of a forecast. *)
Definition dayObject (date week wea tem tem2 tem1 win win_speed air_level
  desc humidity : string) : QJsonValue :=
  object
    [ ("date", str date); ("week", str week); ("wea", str wea);
      ("tem", str tem); ("tem2", str tem2); ("tem1", str tem1);
      ("win", Array [str win; str win]); ("win_speed", str win_speed);
      ("air_level", str air_level);
      ("index",
       Array [object []; object []; object []; object [("desc", str desc)]]);
      ("humidity", str humidity) ].

Definition sampleDays : list QJsonValue :=
  [ dayObject "2025-03-01" "星期六" "多云转晴" "12" "3" "15" "北风" "3级" "优"
      "天气较凉" "40%";
    dayObject "2025-03-02" "星期日" "晴" "13" "4" "16" "南风" "2级" "良"
      "适宜出行" "35%";
    dayObject "2025-03-03" "星期一" "小雨" "10" "5" "12" "东风" "1级" "优"
      "记得带伞" "70%";
    dayObject "2025-03-04" "星期二" "阴" "11" "4" "13" "西风" "2级" "轻度"
      "注意保暖" "55%";
    dayObject "2025-03-05" "星期三" "多云" "14" "6" "17" "北风" "3级" "良"
      "适宜晾晒" "45%";
    dayObject "2025-03-06" "星期四" "晴" "16" "7" "19" "南风" "1级" "优"
      "适宜运动" "30%" ].

(** A forecast for six days. *)
Definition sampleForecast : QByteArray :=
  Some (object [ ("city", str "北京"); ("aqi", object [("pm25", str "35")]);
                 ("data", Array sampleDays) ]).

(** A valid answer whose [data] array is empty. *)
Definition emptyDataRoot : gmap QString QJsonValue :=
  members [ ("city", str "上海"); ("aqi", object [("pm25", str "12")]);
            ("data", Array []) ].

Definition emptyDataForecast : QByteArray := Some (Object emptyDataRoot).

(** A valid object without [data]. *)
Definition noDataForecast : QByteArray :=
  Some (object [ ("city", str "上海") ]).

(** A forecast whose [data] array has eight elements. *)
Definition eightDayRoot : gmap QString QJsonValue :=
  members [ ("city", str "北京");
            ("data", Array (sampleDays ++ take 2 sampleDays)) ].

Definition eightDayForecast : QByteArray := Some (Object eightDayRoot).

Definition okReply (body : QByteArray) : QNetworkReply :=
  mkReply NoError 200 body.

(** The window after the six-day forecast has arrived: [None] stands for a
    run that stopped with a fault. *)
Definition afterSampleForecast : option Widget :=
  result (readHttpReply (okReply sampleForecast) sampleWidget).

(** The window after the six-day forecast, as a window. *)
Definition loadedWidget : Widget := default sampleWidget afterSampleForecast.

(** A six-day forecast with the same high temperature on every day. *)
Definition uniformForecast (tem1 : string) : QByteArray :=
  Some (object
    [ ("city", str "北京");
      ("data",
       Array ((λ date,
                 dayObject date "星期六" "晴" "12" "3" tem1 "北风" "3级" "优"
                   "天气较凉" "40%")
              <$> [ "2025-03-01"; "2025-03-02"; "2025-03-03"; "2025-03-04";
                    "2025-03-05"; "2025-03-06" ])) ]).

(** The window after a forecast whose six highs all read 1073741824. *)
Definition hotWidget : Widget :=
  default sampleWidget
    (result (readHttpReply (okReply (uniformForecast "1073741824"))
               sampleWidget)).

(** The window after a forecast whose six highs all read 10. *)
Definition mildWidget : Widget :=
  default sampleWidget
    (result (readHttpReply (okReply (uniformForecast "10")) sampleWidget)).

(** ** The resolver: theorems *)

Section CityCodeFacts.

Variable citycode_json : QByteArray.

Lemma lookup_Some_nonempty (m : gmap QString QString) k v :
  m !! k = Some v → m ≠ ∅.
Proof. intros H ->. by rewrite lookup_empty in H. Qed.

Lemma InitCityMap_initCalls u :
  initCalls (InitCityMap citycode_json u) = S (initCalls u).
Proof. reflexivity. Qed.

Lemma getCityCodeFromName_table n u :
  CityMap (getCityCodeFromName citycode_json n u).2
  = tableAtLookup citycode_json u.
Proof.
  unfold getCityCodeFromName, tableAtLookup.
  destruct (decide (CityMap u = ∅)); repeat case_match; reflexivity.
Qed.

Lemma getCityCodeFromName_initCalls n u :
  initCalls (getCityCodeFromName citycode_json n u).2
  = if decide (CityMap u = ∅) then S (initCalls u) else initCalls u.
Proof.
  unfold getCityCodeFromName.
  destruct (decide (CityMap u = ∅)); repeat case_match; reflexivity.
Qed.

(** The result as a function of the table the lookup works on. *)
Lemma getCityCodeFromName_code n u :
  (getCityCodeFromName citycode_json n u).1
  = let T := tableAtLookup citycode_json u in
    match T !! n with
    | Some c => c
    | None =>
        match T !! (n ++ qs "市") with
        | Some c => c
        | None =>
            match T !! (n ++ qs "县") with
            | Some c => c
            | None => default [] (T !! (n ++ qs "区"))
            end
        end
    end.
Proof.
  unfold getCityCodeFromName, tableAtLookup.
  replace (if decide (CityMap u = ∅)
           then CityMap (InitCityMap citycode_json u) else CityMap u)
    with (CityMap (if decide (CityMap u = ∅)
                   then InitCityMap citycode_json u else u))
    by (destruct (decide (CityMap u = ∅)); reflexivity).
  generalize (if decide (CityMap u = ∅)
              then InitCityMap citycode_json u else u).
  intros u1. cbv zeta.
  destruct (CityMap u1 !! n); [done|].
  destruct (CityMap u1 !! (n ++ qs "市")); [done|].
  destruct (CityMap u1 !! (n ++ qs "县")); [done|].
  destruct (CityMap u1 !! (n ++ qs "区")); done.
Qed.

(** A table that holds an entry is never loaded again and never changes. *)
Lemma getCityCodeFromName_loaded n u :
  CityMap u ≠ ∅ →
  (getCityCodeFromName citycode_json n u).2 = u.
Proof.
  intros Hne. unfold getCityCodeFromName.
  destruct (decide (CityMap u = ∅)); [done|].
  repeat case_match; reflexivity.
Qed.

Lemma getCityCodes_loaded names u :
  CityMap u ≠ ∅ →
  (getCityCodes citycode_json names u).2 = u.
Proof.
  intros Hne. induction names as [|n names IH]; simpl; [done|].
  pose proof (getCityCodeFromName_loaded n u Hne) as H1.
  destruct (getCityCodeFromName citycode_json n u) as [c u1]; simpl in *.
  subst u1.
  destruct (getCityCodes citycode_json names u) as [cs u2]; simpl in *.
  done.
Qed.

(** While the load leaves the table empty, every call loads again. *)
Lemma getCityCodes_failing_load names u :
  CityMap u = ∅ →
  CityMap (InitCityMap citycode_json u) = ∅ →
  initCalls (getCityCodes citycode_json names u).2
  = (initCalls u + length names)%nat
  ∧ CityMap (getCityCodes citycode_json names u).2 = ∅.
Proof.
  revert u. induction names as [|n names IH]; intros u He Hl; simpl.
  - split; [lia | done].
  - pose proof (getCityCodeFromName_table n u) as Ht.
    pose proof (getCityCodeFromName_initCalls n u) as Hc.
    unfold tableAtLookup in Ht.
    destruct (decide (CityMap u = ∅)); [|done].
    destruct (getCityCodeFromName citycode_json n u) as [c u1]; simpl in *.
    assert (Hl1 : CityMap (InitCityMap citycode_json u1) = ∅).
    { unfold InitCityMap in *; simpl in *. rewrite Ht, Hl in *.
      rewrite He in Hl. exact Hl. }
    rewrite Hl in Ht.
    specialize (IH u1 Ht Hl1).
    destruct (getCityCodes citycode_json names u1) as [cs u2]; simpl in *.
    destruct IH as [IH1 IH2]. split; [lia | done].
Qed.

Lemma tableAtLookup_again n u :
  tableAtLookup citycode_json (getCityCodeFromName citycode_json n u).2
  = tableAtLookup citycode_json u.
Proof.
  pose proof (getCityCodeFromName_table n u) as Ht.
  destruct (getCityCodeFromName citycode_json n u) as [c u1]; simpl in *.
  unfold tableAtLookup in *.
  destruct (decide (CityMap u1 = ∅)) as [E1|N1]; [|done].
  destruct (decide (CityMap u = ∅)) as [E|N].
  - unfold InitCityMap; simpl. by rewrite E1, E.
  - congruence.
Qed.

(** Once a load has put an entry into the table, a run of lookups loads at
    most once. *)
Lemma getCityCodes_working_load names u :
  CityMap u = ∅ →
  CityMap (InitCityMap citycode_json u) ≠ ∅ →
  initCalls (getCityCodes citycode_json names u).2
  = (initCalls u + if names is [] then 0 else 1)%nat.
Proof.
  intros He Hl. destruct names as [|n names]; simpl; [lia|].
  pose proof (getCityCodeFromName_table n u) as Ht.
  pose proof (getCityCodeFromName_initCalls n u) as Hc.
  unfold tableAtLookup in Ht.
  destruct (decide (CityMap u = ∅)); [|done].
  destruct (getCityCodeFromName citycode_json n u) as [c u1]; simpl in *.
  assert (Hne : CityMap u1 ≠ ∅) by congruence.
  pose proof (getCityCodes_loaded names u1 Hne) as Hs.
  destruct (getCityCodes citycode_json names u1) as [cs u2]; simpl in *.
  subst u2. lia.
Qed.

(** C1: for every city name [n], [getCityCodeFromName n] returns the code
    stored for [n] when the table holds [n] verbatim; otherwise the code
    stored for [n] followed by "市" when that key is held; otherwise the one
    for [n] followed by "县"; otherwise the one for [n] followed by "区";
    and the empty string when none of the four keys is held.  Keys are
    compared as exact sequences of code units (so letter case matters).
    The table is fixed by the resolver and the dataset the call is given:
    the stored table when it holds an entry, and the table [InitCityMap]
    loads from the dataset when the stored one is empty; it is also the
    table the call leaves in the resolver. *)
Theorem getCityCodeFromName_suffix_fallback (n : QString)
  (u : CityCodeUtils) :
  let code := (getCityCodeFromName citycode_json n u).1 in
  let T := tableAtLookup citycode_json u in
  (∀ c, T !! n = Some c → code = c)
  ∧ (∀ c, T !! n = None → T !! (n ++ qs "市") = Some c → code = c)
  ∧ (∀ c, T !! n = None → T !! (n ++ qs "市") = None →
          T !! (n ++ qs "县") = Some c → code = c)
  ∧ (∀ c, T !! n = None → T !! (n ++ qs "市") = None →
          T !! (n ++ qs "县") = None →
          T !! (n ++ qs "区") = Some c → code = c)
  ∧ (T !! n = None → T !! (n ++ qs "市") = None →
     T !! (n ++ qs "县") = None → T !! (n ++ qs "区") = None →
     code = qs "")
  ∧ CityMap (getCityCodeFromName citycode_json n u).2 = T
  ∧ (CityMap u ≠ ∅ → T = CityMap u)
  ∧ (CityMap u = ∅ → T = CityMap (InitCityMap citycode_json u)).
Proof.
  cbv zeta.
  rewrite getCityCodeFromName_table, getCityCodeFromName_code. cbv zeta.
  assert (Hstored : CityMap u ≠ ∅ → tableAtLookup citycode_json u = CityMap u).
  { intros Hne. unfold tableAtLookup. by destruct (decide (CityMap u = ∅)). }
  assert (Hloaded : CityMap u = ∅ →
                    tableAtLookup citycode_json u
                    = CityMap (InitCityMap citycode_json u)).
  { intros He. unfold tableAtLookup. by destruct (decide (CityMap u = ∅)). }
  revert Hstored Hloaded.
  generalize (tableAtLookup citycode_json u). intros T Hstored Hloaded.
  split; [intros c ->; reflexivity|].
  split; [intros c -> ->; reflexivity|].
  split; [intros c -> -> ->; reflexivity|].
  split; [intros c -> -> -> ->; reflexivity|].
  split; [intros -> -> -> ->; reflexivity|].
  split; [reflexivity|]. split; [exact Hstored|exact Hloaded].
Qed.

(** C9, as the code has it: a run of lookups on one resolver instance
    never loads once the table holds an entry; starting from the empty
    table it loads exactly once when the load puts an entry into the table,
    and once per call when the load leaves the table empty; a repeated call
    with the same input returns the same code, and the code depends on the
    resolver only through the table contents. *)
Theorem getCityCodes_load_count (names : list QString) (n : QString)
  (u : CityCodeUtils) :
  (CityMap u ≠ ∅ → (getCityCodes citycode_json names u).2 = u)
  ∧ (CityMap u = ∅ → CityMap (InitCityMap citycode_json u) ≠ ∅ →
     initCalls (getCityCodes citycode_json names u).2
     = (initCalls u + if names is [] then 0 else 1)%nat)
  ∧ (CityMap u = ∅ → CityMap (InitCityMap citycode_json u) = ∅ →
     initCalls (getCityCodes citycode_json names u).2
     = (initCalls u + length names)%nat)
  ∧ (getCityCodeFromName citycode_json n
       (getCityCodeFromName citycode_json n u).2).1
    = (getCityCodeFromName citycode_json n u).1
  ∧ (∀ u', CityMap u' = CityMap u →
       (getCityCodeFromName citycode_json n u').1
       = (getCityCodeFromName citycode_json n u).1).
Proof.
  split; [apply getCityCodes_loaded|].
  split; [apply getCityCodes_working_load|].
  split; [intros He Hl; apply getCityCodes_failing_load; done|].
  split.
  - rewrite !getCityCodeFromName_code, tableAtLookup_again. reflexivity.
  - intros u' Hu. rewrite !getCityCodeFromName_code.
    unfold tableAtLookup, InitCityMap; simpl. rewrite Hu. reflexivity.
Qed.

End CityCodeFacts.

Lemma getCityCodeFromName_suffix_fallback_witness :
  (getCityCodeFromName sampleCities (qs "北京") CityCodeUtils_new).1
  = qs "101010100".
Proof.
  apply (proj1 (proj2 (getCityCodeFromName_suffix_fallback sampleCities
                         (qs "北京") CityCodeUtils_new)));
    vm_compute; reflexivity.
Defined.

(** Letter case matters: the table holds "Beijing", not "beijing". *)
Example getCityCodeFromName_case_sensitive :
  (getCityCodeFromName sampleCities (qs "Beijing") CityCodeUtils_new).1
  = qs "101010100"
  ∧ (getCityCodeFromName sampleCities (qs "beijing") CityCodeUtils_new).1
    = qs "".
Proof. split; reflexivity. Qed.

(** The order of the suffixes: "朝阳" is held both as "朝阳市" and as
    "朝阳区", and the city wins. *)
Example getCityCodeFromName_order :
  (getCityCodeFromName sampleCities (qs "朝阳") CityCodeUtils_new).1
  = qs "101071201"
  ∧ (getCityCodeFromName sampleCities (qs "桐庐") CityCodeUtils_new).1
    = qs "101210103".
Proof. split; reflexivity. Qed.

Lemma getCityCodes_load_count_witness :
  initCalls
    (getCityCodes sampleCities [qs "北京"; qs "上海"; qs "北京"]
       CityCodeUtils_new).2 = 1%nat.
Proof.
  apply (proj1 (proj2 (getCityCodes_load_count sampleCities
                         [qs "北京"; qs "上海"; qs "北京"] (qs "北京")
                         CityCodeUtils_new))).
  - reflexivity.
  - apply (lookup_Some_nonempty _ (qs "北京市") (qs "101010100")).
    vm_compute. reflexivity.
Defined.

(** C9 as stated fails: with a dataset that is not a JSON array the load
    leaves the table empty, and the second lookup runs the load again. *)
Lemma getCityCodes_reloads_after_failed_load :
  ¬ (initCalls
       (getCityCodes brokenCities [qs "北京"; qs "北京"]
          CityCodeUtils_new).2 ≤ 1)%nat.
Proof. vm_compute. lia. Qed.

(** ** The trend charts: theorems *)

Lemma int_wrap_in_int z : in_int z → int_wrap z = z.
Proof.
  unfold in_int, INT_MIN, INT_MAX, int_wrap. intros H.
  rewrite Z.mod_small by lia. lia.
Qed.

Lemma int_wrap_range z : in_int (int_wrap z).
Proof.
  unfold in_int, INT_MIN, INT_MAX, int_wrap.
  pose proof (Z.mod_pos_bound (z + 2 ^ 31) (2 ^ 32) ltac:(lia)). lia.
Qed.

Lemma int_wrap_shift z k : int_wrap (z + k * 2 ^ 32) = int_wrap z.
Proof.
  unfold int_wrap.
  replace (z + k * 2 ^ 32 + 2 ^ 31) with (z + 2 ^ 31 + k * 2 ^ 32) by ring.
  by rewrite Z_mod_plus_full.
Qed.

Lemma int_wrap_repr z : ∃ k, int_wrap z = z + k * 2 ^ 32.
Proof.
  exists (- ((z + 2 ^ 31) `div` 2 ^ 32)). unfold int_wrap.
  pose proof (Z.div_mod (z + 2 ^ 31) (2 ^ 32) ltac:(lia)). lia.
Qed.

Lemma int_add_wrap_l a b : int_add (int_wrap a) b = int_wrap (a + b).
Proof.
  unfold int_add. destruct (int_wrap_repr a) as [k ->].
  replace (a + k * 2 ^ 32 + b) with (a + b + k * 2 ^ 32) by ring.
  apply int_wrap_shift.
Qed.

Lemma toInt_in_int s : in_int (toInt s).
Proof.
  unfold toInt.
  repeat case_match; try case_bool_decide;
    unfold in_int, INT_MIN, INT_MAX in *; try lia.
Qed.

Lemma int_sub_mul_wrap a b c d :
  int_sub a (int_mul (int_sub b c) d) = int_wrap (a - (b - c) * d).
Proof.
  unfold int_sub, int_mul.
  destruct (int_wrap_repr (b - c)) as [k ->].
  destruct (int_wrap_repr ((b - c + k * 2 ^ 32) * d)) as [k' ->].
  replace (a - ((b - c + k * 2 ^ 32) * d + k' * 2 ^ 32))
    with (a - (b - c) * d + (- (k * d) - k') * 2 ^ 32) by ring.
  apply int_wrap_shift.
Qed.

Lemma int_div_in_int a b : in_int a → 0 < b → int_div a b = Z.quot a b.
Proof.
  intros Ha Hb. unfold int_div. apply int_wrap_in_int.
  unfold in_int, INT_MIN, INT_MAX in *.
  destruct (Z.le_gt_cases 0 a).
  - pose proof (Z.quot_pos a b ltac:(lia) ltac:(lia)).
    pose proof (Z.quot_le_upper_bound a b a ltac:(lia)). nia.
  - pose proof (Z.quot_opp_l a b ltac:(lia)).
    pose proof (Z.quot_pos (- a) b ltac:(lia) ltac:(lia)).
    pose proof (Z.quot_le_upper_bound (- a) b (- a) ltac:(lia)). nia.
Qed.

Lemma sumTemp_in_range m ds i d acc :
  ds !! i = Some d → sumTemp m ds i acc = Done (int_add acc (toInt (m d))).
Proof. intros Hd. unfold sumTemp, day_at. by rewrite Hd. Qed.

Lemma for_range_sumTemp m ds n i acc :
  (i + n ≤ length ds)%nat →
  for_range i n (sumTemp m ds) acc
  = Done (foldl (λ s d, int_add s (toInt (m d))) acc (take n (drop i ds))).
Proof.
  revert i acc. induction n as [|n IH]; intros i acc Hlen; simpl.
  - reflexivity.
  - destruct (lookup_lt_is_Some_2 ds i ltac:(lia)) as [d Hd].
    rewrite (sumTemp_in_range _ _ _ _ _ Hd). simpl.
    rewrite (drop_S _ _ _ Hd). simpl. apply IH. lia.
Qed.

Lemma foldl_int_add (f : Day → Z) l acc :
  in_int acc →
  foldl (λ s d, int_add s (f d)) acc l = int_wrap (acc + sum_temps (f <$> l)).
Proof.
  revert acc. induction l as [|d l IH]; intros acc Hacc; simpl.
  - rewrite Z.add_0_r. symmetry. by apply int_wrap_in_int.
  - rewrite IH by apply int_wrap_range.
    unfold int_add at 1.
    change (int_wrap (int_wrap (acc + f d) + sum_temps (f <$> l)))
      with (int_add (int_wrap (acc + f d)) (sum_temps (f <$> l))).
    rewrite int_add_wrap_l. f_equal. unfold sum_temps, fmap. lia.
Qed.

Lemma plotTemp_in_range m w middle ave i lb d acc :
  mAirqList w !! i = Some lb → days w !! i = Some d →
  plotTemp m w middle ave i acc
  = Done (acc.1 ++ [mkQPoint (hcenter lb)
                      (int_sub middle (int_mul (int_sub (toInt (m d)) ave) 3))],
          acc.2 ++ [DrawEllipse
                      (mkQPoint (hcenter lb)
                         (int_sub middle
                            (int_mul (int_sub (toInt (m d)) ave) 3))) 3 3;
                    DrawText (int_sub (hcenter lb) 10)
                      (int_sub
                         (int_sub middle
                            (int_mul (int_sub (toInt (m d)) ave) 3)) 10)
                      (m d ++ qs "°")]).
Proof.
  intros Hl Hd. unfold plotTemp, label_get, day_at. rewrite Hl, Hd.
  reflexivity.
Qed.

Lemma for_range_plotTemp m w middle ave n i acc :
  (i + n ≤ length (mAirqList w))%nat → (i + n ≤ length (days w))%nat →
  ∃ cmds,
    for_range i n (plotTemp m w middle ave) acc
    = Done (acc.1 ++
              zip_with
                (λ lb d, mkQPoint (hcenter lb)
                   (int_sub middle (int_mul (int_sub (toInt (m d)) ave) 3)))
                (take n (drop i (mAirqList w))) (take n (drop i (days w))),
            cmds).
Proof.
  revert i acc. induction n as [|n IH]; intros i acc Hl Hd; simpl.
  - exists acc.2. rewrite app_nil_r. by destruct acc.
  - destruct (lookup_lt_is_Some_2 (mAirqList w) i ltac:(lia)) as [lb Hlb].
    destruct (lookup_lt_is_Some_2 (days w) i ltac:(lia)) as [d Hdd].
    rewrite (plotTemp_in_range _ _ _ _ _ _ _ _ Hlb Hdd). simpl.
    rewrite (drop_S _ _ _ Hlb), (drop_S _ _ _ Hdd). simpl.
    edestruct (IH (S i)) as [cmds ->]; [lia | lia |].
    exists cmds. simpl. by rewrite <- app_assoc.
Qed.

Lemma zip_with_ext_elem {A B C} (f g : A → B → C) l k :
  (∀ a b, b ∈ k → f a b = g a b) → zip_with f l k = zip_with g l k.
Proof.
  revert k. induction l as [|a l IH]; intros [|b k] H; simpl; try done.
  f_equal; [apply H; left | apply IH; intros; apply H; by right].
Qed.

Lemma bind_Done {A B} (a : A) (k : A → outcome B) : Done a ≫= k = k a.
Proof. reflexivity. Qed.

Lemma drawTempLine_points m c h w temps :
  (toInt ∘ m) <$> take 6 (days w) = temps →
  length temps = 6%nat →
  (6 ≤ length (mAirqList w))%nat →
  in_int h →
  in_int (sum_temps temps) →
  (∀ t, t ∈ temps → in_int (spec_y temps h t)) →
  ∃ cmds,
    drawTempLine m c h w
    = Done (zip_with (λ lb t, mkQPoint (hcenter lb) (spec_y temps h t))
              (take 6 (mAirqList w)) temps, cmds).
Proof.
  intros <- Hlen Hl Hh Hsum Hy.
  assert (Hd : (6 ≤ length (days w))%nat).
  { rewrite length_fmap, length_take in Hlen. lia. }
  unfold drawTempLine.
  rewrite for_range_sumTemp by (simpl; lia). rewrite bind_Done, drop_0.
  rewrite (foldl_int_add (toInt ∘ m))
    by (unfold in_int, INT_MIN, INT_MAX; lia).
  rewrite Z.add_0_l, (int_wrap_in_int _ Hsum).
  destruct (for_range_plotTemp m w (int_div h 2)
              (int_div (sum_temps (toInt ∘ m <$> take 6 (days w))) 6)
              6 0 ([], [SetAntialiasing; SetPen c; SetBrush c]))
    as [cmds ->]; [simpl; lia | simpl; lia |].
  rewrite bind_Done. eexists. do 2 f_equal. simpl.
  rewrite !drop_0, zip_with_fmap_r.
  apply zip_with_ext_elem. intros lb d Hin. f_equal.
  rewrite int_sub_mul_wrap, !int_div_in_int by (done || lia).
  apply int_wrap_in_int, Hy, list_elem_of_fmap. by exists d.
Qed.

Lemma py_zip_with {A} (f : A → Z) (g : Z → Z) (l : list A) (k : list Z) :
  (length k ≤ length l)%nat →
  py <$> zip_with (λ a t, mkQPoint (f a) (g t)) l k = g <$> k.
Proof.
  revert l. induction k as [|t k IH]; intros [|a l] Hlen; simpl in *;
    try done; try lia.
  f_equal. apply IH. lia.
Qed.

(** C2, with the range in which it holds: for every six-element sequence
    [temps] of [int] temperatures (the [toInt()] readings of the first six
    days) and every chart height [h], as long as the sum of the six values
    and every [h/2 - (temps[i] - average)*3] fit an [int], the chart routine
    places point [i] at [x] = the horizontal centre of column label [i] and
    [y = h/2 - (temps[i] - average)*3] with the truncating
    [average = (temps[0]+...+temps[5]) / 6]; so six equal temperatures give
    [y = h/2] throughout and [0,10,20,0,10,20] gives the offsets
    [-30,0,30,-30,0,30].  This holds for the high and for the low chart. *)
Theorem trend_curve_layout (w : Widget)
  (chart : Widget → outcome (list QPoint * list PaintCmd))
  (m : Day → QString) (h : Z) (temps : list Z) :
  (chart, m, h) ∈ [ (drawTempLineHigh, mTempHigh, widget0404_height (ui w));
                    (drawTempLineLow, mTempLow, widget0405_height (ui w)) ] →
  (toInt ∘ m) <$> take 6 (days w) = temps →
  length temps = 6%nat →
  (6 ≤ length (mAirqList w))%nat →
  in_int h →
  in_int (sum_temps temps) →
  (∀ t, t ∈ temps → in_int (spec_y temps h t)) →
  ∃ points cmds,
    chart w = Done (points, cmds)
    ∧ points
      = zip_with
          (λ lb t,
             mkQPoint (hcenter lb)
               (Z.quot h 2 - (t - Z.quot (sum_temps temps) 6) * 3))
          (take 6 (mAirqList w)) temps
    ∧ (∀ t, temps = replicate 6 t →
            py <$> points = replicate 6 (Z.quot h 2))
    ∧ (temps = [0; 10; 20; 0; 10; 20] →
       py <$> points
       = (λ offset, Z.quot h 2 - offset) <$> [-30; 0; 30; -30; 0; 30]).
Proof.
  intros Hin Ht Hlen Hl Hh Hsum Hy.
  assert (Hrun : ∃ cmds,
    chart w
    = Done (zip_with (λ lb t, mkQPoint (hcenter lb) (spec_y temps h t))
              (take 6 (mAirqList w)) temps, cmds)).
  { set_unfold in Hin. destruct Hin as [Hin|[Hin|[]]];
      injection Hin as Hc Hm Hh'; subst chart m h.
    - exact (drawTempLine_points mTempHigh yellow _ w temps
               Ht Hlen Hl Hh Hsum Hy).
    - exact (drawTempLine_points mTempLow blue _ w temps
               Ht Hlen Hl Hh Hsum Hy). }
  destruct Hrun as [cmds Hrun].
  eexists _, cmds. split; [exact Hrun|]. split; [reflexivity|].
  assert (Hpy :
    py <$> zip_with (λ lb t, mkQPoint (hcenter lb) (spec_y temps h t))
             (take 6 (mAirqList w)) temps
    = spec_y temps h <$> temps).
  { apply py_zip_with. rewrite length_take. lia. }
  rewrite Hpy. split.
  - intros t ->. unfold spec_y, spec_average.
    replace (sum_temps (replicate 6 t)) with (t * 6)
      by (unfold sum_temps; simpl; lia).
    rewrite Z.quot_mul by lia. simpl. repeat f_equal; lia.
  - intros ->. unfold spec_y, spec_average. reflexivity.
Qed.

Lemma trend_curve_layout_witness :
  ∃ points cmds,
    drawTempLineHigh mildWidget = Done (points, cmds)
    ∧ py <$> points = replicate 6 75.
Proof.
  destruct (trend_curve_layout mildWidget drawTempLineHigh mTempHigh 150
              (replicate 6 10)) as (points & cmds & Hrun & _ & Hflat & _).
  - left.
  - vm_compute. reflexivity.
  - reflexivity.
  - vm_compute. lia.
  - vm_compute. split; discriminate.
  - vm_compute. split; discriminate.
  - intros t ->%elem_of_replicate_inv. vm_compute. split; discriminate.
  - exists points, cmds. split; [exact Hrun|]. apply (Hflat 10). reflexivity.
Defined.

(** C2 as stated fails at the far end of the [int] range: with the same
    high temperature 1073741824 on all six days the sum wraps, and every
    point of the high chart lies one pixel below mid-height. *)
Lemma drawTempLineHigh_wraps :
  result (readHttpReply (okReply (uniformForecast "1073741824")) sampleWidget)
  = Some hotWidget
  ∧ (toInt ∘ mTempHigh) <$> take 6 (days hotWidget)
    = replicate 6 1073741824
  ∧ Z.quot (widget0404_height (ui hotWidget)) 2 = 75
  ∧ (λ r : list QPoint * list PaintCmd, py <$> r.1)
      <$> result (drawTempLineHigh hotWidget)
    = Some (replicate 6 76)
  ∧ ¬ (∃ points cmds,
         drawTempLineHigh hotWidget = Done (points, cmds)
         ∧ ∀ p, p ∈ points →
                py p = Z.quot (widget0404_height (ui hotWidget)) 2).
Proof.
  split; [vm_compute; reflexivity|].
  split; [vm_compute; reflexivity|].
  split; [vm_compute; reflexivity|].
  assert (Hpts : (λ r : list QPoint * list PaintCmd, py <$> r.1)
                   <$> result (drawTempLineHigh hotWidget)
                 = Some (replicate 6 76)) by (vm_compute; reflexivity).
  split; [exact Hpts|].
  intros (points & cmds & Hrun & Hflat).
  rewrite Hrun in Hpts. simpl in Hpts. injection Hpts as Hpts.
  destruct points as [|p points]; [discriminate Hpts|].
  injection Hpts as Hp _.
  specialize (Hflat p ltac:(left)).
  rewrite Hp in Hflat. vm_compute in Hflat. discriminate Hflat.
Qed.

(** ** The reply handler and the parser: theorems *)

Lemma days_assign_in_range ds i f d :
  ds !! i = Some d → days_assign ds i f = Done (<[i := f d]> ds).
Proof. intros H. unfold days_assign. by rewrite H. Qed.

Lemma days_assign_out_of_range ds i f :
  (length ds ≤ i)%nat → days_assign ds i f = Fault (DaysOutOfRange i).
Proof.
  intros H. unfold days_assign. by rewrite (lookup_ge_None_2 ds i H).
Qed.

(** The two writes to [days[0]] that come before the [data] check. *)
Lemma parseWeatherJsonDataNew_object root w d0 :
  days w !! 0%nat = Some d0 →
  parseWeatherJsonDataNew (Some (Object root)) w
  = let ds :=
      <[0%nat :=
          set_mPm25
            (toString
               (member (qs "pm25") (toObject (member (qs "aqi") root))))
            (set_mCity (toString (member (qs "city") root)) d0)]> (days w) in
    if contains (qs "data") root && isArray (member (qs "data") root)
    then ds' ← parseDays 0 (toArray (member (qs "data") root)) ds;
         updateUI (set_days ds' w)
    else Done (set_days ds w).
Proof.
  intros H0. unfold parseWeatherJsonDataNew. simpl fromJson.
  cbn [doc_isNull doc_isObject negb andb doc_object].
  rewrite (days_assign_in_range _ _ _ _ H0), bind_Done.
  assert (H1 : <[0%nat := set_mCity (toString (member (qs "city") root)) d0]>
                 (days w) !! 0%nat
               = Some (set_mCity (toString (member (qs "city") root)) d0)).
  { apply list_lookup_insert_eq. by apply lookup_lt_Some in H0. }
  rewrite (days_assign_in_range _ _ _ _ H1), bind_Done.
  rewrite list_insert_insert_eq. reflexivity.
Qed.

(** C8: a reply with a transport error or with a status other than 200
    shows the error box "网络请求失败" and changes nothing else: the stored
    records [days], the labels and the request string stay as they were. *)
Theorem readHttpReply_failure (reply : QNetworkReply) (w : Widget) :
  error reply ≠ NoError ∨ HttpStatusCodeAttribute reply ≠ 200 →
  ∃ w',
    readHttpReply reply w = Done w'
    ∧ w' = emit (MessageBox (qs "错误") (qs "网络请求失败")) w
    ∧ days w' = days w
    ∧ ui w' = ui w
    ∧ log w' = log w ++ [MessageBox (qs "错误") (qs "网络请求失败")].
Proof.
  intros H. eexists. split; [|repeat split].
  unfold readHttpReply.
  destruct H as [H|H].
  - rewrite (bool_decide_eq_false_2 _ H). reflexivity.
  - rewrite (bool_decide_eq_false_2 _ H), andb_false_r. reflexivity.
Qed.

Lemma readHttpReply_failure_witness :
  ∃ w',
    readHttpReply (mkReply NoError 404 sampleForecast) sampleWidget = Done w'
    ∧ days w' = days sampleWidget.
Proof.
  destruct (readHttpReply_failure (mkReply NoError 404 sampleForecast)
              sampleWidget) as (w' & Hrun & _ & Hdays & _).
  - right. simpl. lia.
  - exists w'. split; [exact Hrun | exact Hdays].
Defined.

(** C3, as the code has it: a payload that is not valid JSON, or whose
    top-level value is not an object, leaves the whole window unchanged; an
    object whose [data] member is absent or not an array overwrites
    [days[0].mCity] and [days[0].mPm25] with the payload's [city] and
    [aqi.pm25] (empty when missing), leaves every other member of every
    element of [days] unchanged, writes no day record and does not refresh
    the labels. *)
Theorem parseWeatherJsonDataNew_rejects (rawData : QByteArray) (w : Widget)
  (d0 : Day) :
  days w !! 0%nat = Some d0 →
  (rawData = None → parseWeatherJsonDataNew rawData w = Done w)
  ∧ (∀ v, rawData = Some v → isObject v = false →
       parseWeatherJsonDataNew rawData w = Done w)
  ∧ (∀ root, rawData = Some (Object root) →
       (root !! qs "data" = None
        ∨ ∃ v, root !! qs "data" = Some v ∧ isArray v = false) →
       ∃ d0',
         parseWeatherJsonDataNew rawData w
         = Done (set_days (<[0%nat := d0']> (days w)) w)
         ∧ d0' = set_mPm25
                   (toString
                      (member (qs "pm25")
                         (toObject (member (qs "aqi") root))))
                   (set_mCity (toString (member (qs "city") root)) d0)
         ∧ mDate d0' = mDate d0 ∧ mWeek d0' = mWeek d0
         ∧ mWeathType d0' = mWeathType d0 ∧ mTemp d0' = mTemp d0
         ∧ mTempLow d0' = mTempLow d0 ∧ mTempHigh d0' = mTempHigh d0
         ∧ mFx d0' = mFx d0 ∧ mFl d0' = mFl d0 ∧ mAirq d0' = mAirq d0
         ∧ mTips d0' = mTips d0 ∧ mHu d0' = mHu d0
         ∧ ∀ i, i ≠ 0%nat →
             <[0%nat := d0']> (days w) !! i = days w !! i).
Proof.
  intros H0. split; [|split].
  - intros ->. reflexivity.
  - intros v -> Hv. destruct v; try reflexivity. discriminate Hv.
  - intros root -> Hdata. eexists. split; [|split; [reflexivity|]].
    + rewrite (parseWeatherJsonDataNew_object _ _ _ H0). cbv zeta.
      assert (Hno : contains (qs "data") root
                    && isArray (member (qs "data") root) = false).
      { destruct Hdata as [Hd|(v & Hd & Hv)].
        - unfold contains. rewrite Hd.
          rewrite bool_decide_eq_false_2; [done|]. by intros [? ?].
        - unfold member. rewrite Hd. simpl. rewrite Hv. apply andb_false_r. }
      rewrite Hno. reflexivity.
    + repeat (split; [reflexivity|]).
      intros i Hi. by apply list_lookup_insert_ne.
Qed.

Lemma parseWeatherJsonDataNew_rejects_witness :
  parseWeatherJsonDataNew None sampleWidget = Done sampleWidget.
Proof.
  apply (proj1 (parseWeatherJsonDataNew_rejects None sampleWidget emptyDay
                  eq_refl)).
  reflexivity.
Defined.

(** C3 as stated fails: after a six-day forecast for 北京 has been stored,
    a valid object for 上海 without [data] changes [days[0].mCity]. *)
Lemma parseWeatherJsonDataNew_writes_city_without_data :
  afterSampleForecast = Some loadedWidget
  ∧ mCity <$> days loadedWidget !! 0%nat = Some (qs "北京")
  ∧ (λ w', mCity <$> days w' !! 0%nat)
      <$> result (parseWeatherJsonDataNew noDataForecast loadedWidget)
    = Some (Some (qs "上海"))
  ∧ days <$> result (parseWeatherJsonDataNew noDataForecast loadedWidget)
    ≠ Some (days loadedWidget).
Proof.
  split; [vm_compute; reflexivity|].
  split; [vm_compute; reflexivity|].
  split; [vm_compute; reflexivity|].
  vm_compute. discriminate.
Qed.

(** The parse loop stays inside [days] exactly when the elements left fit
    behind the current index. *)
Lemma parseDays_in_range weaArray : ∀ i ds,
  (i + length weaArray ≤ length ds)%nat →
  ∃ ds',
    parseDays i weaArray ds = Done ds'
    ∧ length ds' = length ds
    ∧ (∀ k v, weaArray !! k = Some v →
         ∃ d, ds !! (i + k)%nat = Some d
              ∧ ds' !! (i + k)%nat = Some (parseDay (toObject v) d))
    ∧ (∀ j, (j < i ∨ i + length weaArray ≤ j)%nat → ds' !! j = ds !! j).
Proof.
  induction weaArray as [|v rest IH]; intros i ds Hlen; simpl in *.
  - exists ds. split; [done|]. split; [done|]. split; [|done].
    intros k v Hk. by rewrite lookup_nil in Hk.
  - destruct (lookup_lt_is_Some_2 ds i ltac:(lia)) as [d Hd].
    rewrite (days_assign_in_range _ _ _ _ Hd), bind_Done.
    destruct (IH (S i) (<[i := parseDay (toObject v) d]> ds))
      as (ds' & Hrun & Hl & Hw & Hf).
    { rewrite length_insert. lia. }
    exists ds'. split; [exact Hrun|].
    rewrite length_insert in Hl. split; [exact Hl|]. split.
    + intros [|k] v' Hk; simpl in Hk.
      * injection Hk as <-. exists d. rewrite Nat.add_0_r. split; [done|].
        rewrite Hf by lia. apply list_lookup_insert_eq.
        by apply lookup_lt_Some in Hd.
      * destruct (Hw k v' Hk) as (d' & Hd' & Hd'').
        rewrite list_lookup_insert_ne in Hd' by lia.
        exists d'. replace (i + S k)%nat with (S i + k)%nat by lia. done.
    + intros j Hj. rewrite Hf by lia. apply list_lookup_insert_ne. lia.
Qed.

Lemma parseDays_out_of_range weaArray : ∀ i ds,
  (i ≤ length ds)%nat →
  (length ds < i + length weaArray)%nat →
  parseDays i weaArray ds = Fault (DaysOutOfRange (length ds)).
Proof.
  induction weaArray as [|v rest IH]; intros i ds Hi Hlen; simpl in *.
  - lia.
  - destruct (decide (i = length ds)) as [->|Hne].
    + rewrite days_assign_out_of_range by lia. reflexivity.
    + destruct (lookup_lt_is_Some_2 ds i ltac:(lia)) as [d Hd].
      rewrite (days_assign_in_range _ _ _ _ Hd), bind_Done.
      rewrite IH; rewrite ?length_insert; [done | lia | lia].
Qed.


Lemma bind_inv_Done {A B} (m : outcome A) (k : A → outcome B) b :
  m ≫= k = Done b → ∃ a, m = Done a ∧ k a = Done b.
Proof. destruct m; simpl; [eauto | discriminate]. Qed.

Lemma bind_inv_Fault {A B} (m : outcome A) (k : A → outcome B) f :
  m ≫= k = Fault f → m = Fault f ∨ ∃ a, m = Done a ∧ k a = Fault f.
Proof. destruct m; simpl; [eauto | intros [= ->]; by left]. Qed.

Lemma label_at_fault l i g f :
  label_at l i g = Fault f → f = LabelListOutOfRange i.
Proof. unfold label_at. destruct (l !! i); congruence. Qed.

Lemma label_get_fault l i f :
  label_get l i = Fault f → f = LabelListOutOfRange i.
Proof. unfold label_get. destruct (l !! i); congruence. Qed.

Lemma string_at_fault l i f :
  string_at l i = Fault f → f = StringListOutOfRange.
Proof. unfold string_at. destruct (l !! i); congruence. Qed.

Lemma day_at_fault ds i f :
  day_at ds i = Fault f → f = DaysOutOfRange i ∧ (length ds ≤ i)%nat.
Proof.
  unfold day_at. destruct (ds !! i) eqn:E; [congruence|].
  intros [= <-]. split; [done|]. by apply lookup_ge_None.
Qed.

Ltac bind_faults H :=
  repeat
    match type of H with
    | _ ≫= _ = Fault _ =>
        apply bind_inv_Fault in H as [H|(? & _ & H)]
    | (let '(_, _) := ?p in _) = Fault _ => destruct p
    | label_at _ _ _ = Fault _ => apply label_at_fault in H
    | label_get _ _ = Fault _ => apply label_get_fault in H
    | string_at _ _ = Fault _ => apply string_at_fault in H
    | Done _ = Fault _ => discriminate H
    end.

Lemma updateUI_day_fault i w f :
  updateUI_day i w = Fault f →
  (i < length (days w))%nat →
  ∀ j, f ≠ DaysOutOfRange j.
Proof.
  intros H Hi j. unfold updateUI_day in H.
  apply bind_inv_Fault in H as [H|(d & _ & H)].
  { apply day_at_fault in H as [_ H]. lia. }
  bind_faults H; try (subst f; discriminate).
Qed.

Ltac bind_dones H :=
  repeat
    match type of H with
    | _ ≫= _ = Done _ =>
        let E := fresh "E" in
        apply bind_inv_Done in H as (? & E & H)
    | (let '(_, _) := ?p in _) = Done _ =>
        let E := fresh "Et" in destruct p eqn:E
    end.

(** What a round of the refresh loop leaves alone. *)
Lemma updateUI_day_frame i w w' :
  updateUI_day i w = Done w' →
  days w' = days w ∧ ui w' = ui w ∧ log w' = log w
  ∧ strUrl w' = strUrl w ∧ cityCodeUtils w' = cityCodeUtils w.
Proof.
  intros H. unfold updateUI_day in H. bind_dones H.
  injection H as <-. done.
Qed.

Lemma for_range_updateUI_day_frame n : ∀ i w w',
  for_range i n updateUI_day w = Done w' →
  days w' = days w ∧ ui w' = ui w ∧ log w' = log w
  ∧ strUrl w' = strUrl w ∧ cityCodeUtils w' = cityCodeUtils w.
Proof.
  induction n as [|n IH]; intros i w w' H; simpl in H.
  - by injection H as <-.
  - apply bind_inv_Done in H as (w1 & H1 & H).
    apply updateUI_day_frame in H1 as (? & ? & ? & ? & ?).
    apply IH in H as (? & ? & ? & ? & ?).
    repeat split; congruence.
Qed.

Lemma for_range_updateUI_day_fault n : ∀ i w f,
  for_range i n updateUI_day w = Fault f →
  (i + n ≤ length (days w))%nat →
  ∀ j, f ≠ DaysOutOfRange j.
Proof.
  induction n as [|n IH]; intros i w f H Hlen j; simpl in H.
  - discriminate H.
  - apply bind_inv_Fault in H as [H|(w1 & H1 & H)].
    + eapply updateUI_day_fault; [exact H | lia].
    + apply updateUI_day_frame in H1 as (Hd & _).
      eapply IH; [exact H | rewrite Hd; lia].
Qed.

(** The refresh reads [days[0]] .. [days[5]] only. *)
Lemma updateUI_fault w f :
  updateUI w = Fault f →
  (6 ≤ length (days w))%nat →
  ∀ j, f ≠ DaysOutOfRange j.
Proof.
  intros H Hlen j. unfold updateUI in H.
  apply bind_inv_Fault in H as [H|(d0 & _ & H)].
  { apply day_at_fault in H as [_ H]. lia. }
  destruct (typeMap_at (mWeathType d0) (mTypeMap w)) as [icon0 tm].
  apply bind_inv_Fault in H as [H|(w1 & _ & H)]; [|discriminate H].
  eapply for_range_updateUI_day_fault; [exact H | simpl; lia].
Qed.

(** C10: with an object payload whose [data] member is an array, the parser
    writes [days[i]] for every index [i] below the length of the array and
    checks no bound.  On the seven-element [days] the writes stay in range
    exactly when the array has at most seven elements (and then no access
    to [days] anywhere in the run is out of range); with eight or more
    elements the run reaches the write to [days[7]], past the end. *)
Theorem parseWeatherJsonDataNew_days_bounds
  (root : gmap QString QJsonValue) (weaArray : list QJsonValue) (w : Widget)
  (d0 : Day) :
  length (days w) = 7%nat →
  days w !! 0%nat = Some d0 →
  root !! qs "data" = Some (Array weaArray) →
  let ds0 :=
    <[0%nat :=
        set_mPm25
          (toString (member (qs "pm25") (toObject (member (qs "aqi") root))))
          (set_mCity (toString (member (qs "city") root)) d0)]> (days w) in
  ((length weaArray ≤ 7)%nat →
   (∃ ds',
      parseDays 0 weaArray ds0 = Done ds'
      ∧ length ds' = 7%nat
      ∧ (∀ k v, weaArray !! k = Some v →
           ∃ d, ds0 !! k = Some d
                ∧ ds' !! k = Some (parseDay (toObject v) d))
      ∧ parseWeatherJsonDataNew (Some (Object root)) w
        = updateUI (set_days ds' w))
   ∧ ∀ j, parseWeatherJsonDataNew (Some (Object root)) w
          ≠ Fault (DaysOutOfRange j))
  ∧ ((8 ≤ length weaArray)%nat →
     parseDays 0 weaArray ds0 = Fault (DaysOutOfRange 7)
     ∧ parseWeatherJsonDataNew (Some (Object root)) w
       = Fault (DaysOutOfRange 7)).
Proof.
  intros Hlen H0 Hdata ds0.
  assert (Hl0 : length ds0 = 7%nat) by (unfold ds0; by rewrite length_insert).
  assert (Hparse :
    parseWeatherJsonDataNew (Some (Object root)) w
    = ds' ← parseDays 0 weaArray ds0; updateUI (set_days ds' w)).
  { rewrite (parseWeatherJsonDataNew_object _ _ _ H0). cbv zeta.
    assert (Hc : contains (qs "data") root = true).
    { unfold contains. rewrite Hdata. apply bool_decide_eq_true_2. eauto. }
    assert (Hm : member (qs "data") root = Array weaArray).
    { unfold member. by rewrite Hdata. }
    rewrite Hc, Hm. reflexivity. }
  split.
  - intros Hle.
    destruct (parseDays_in_range weaArray 0 ds0 ltac:(simpl; lia))
      as (ds' & Hrun & Hl & Hw & _).
    assert (Hp : parseWeatherJsonDataNew (Some (Object root)) w
                 = updateUI (set_days ds' w))
      by (by rewrite Hparse, Hrun, bind_Done).
    split.
    + exists ds'. split; [exact Hrun|]. split; [lia|]. split; [exact Hw|].
      exact Hp.
    + intros j Hf. rewrite Hp in Hf.
      eapply updateUI_fault; [exact Hf | simpl; lia | reflexivity].
  - intros Hge.
    assert (Hrun : parseDays 0 weaArray ds0 = Fault (DaysOutOfRange 7)).
    { rewrite (parseDays_out_of_range weaArray 0 ds0) by lia.
      by rewrite Hl0. }
    split; [exact Hrun|]. by rewrite Hparse, Hrun.
Qed.

Lemma parseWeatherJsonDataNew_days_bounds_witness :
  parseWeatherJsonDataNew eightDayForecast sampleWidget
  = Fault (DaysOutOfRange 7).
Proof.
  apply (proj2 (parseWeatherJsonDataNew_days_bounds eightDayRoot
                  (sampleDays ++ take 2 sampleDays) sampleWidget emptyDay
                  eq_refl eq_refl eq_refl)).
  simpl. lia.
Defined.

(** ** The label refresh: theorems *)

Lemma label_at_in_range l i g :
  (i < length l)%nat →
  ∃ l', label_at l i g = Done l' ∧ length l' = length l.
Proof.
  intros Hi. destruct (lookup_lt_is_Some_2 l i Hi) as [lb Hlb].
  unfold label_at. rewrite Hlb. eexists. split; [done|].
  apply length_insert.
Qed.

Lemma label_get_in_range l i :
  (i < length l)%nat → ∃ lb, label_get l i = Done lb.
Proof.
  intros Hi. destruct (lookup_lt_is_Some_2 l i Hi) as [lb Hlb].
  unfold label_get. rewrite Hlb. eauto.
Qed.

Lemma string_at_in_range l i :
  (i < length l)%nat → ∃ s, string_at l i = Done s.
Proof.
  intros Hi. destruct (lookup_lt_is_Some_2 l i Hi) as [lb Hlb].
  unfold string_at. rewrite Hlb. eauto.
Qed.

Ltac step_done :=
  match goal with
  | |- context [label_at ?l ?i ?g ≫= _] =>
      let l' := fresh "l" in
      let E := fresh "E" in
      let L := fresh "L" in
      destruct (label_at_in_range l i g) as (l' & E & L); [lia|];
      rewrite E, bind_Done; clear E
  | |- context [label_get ?l ?i ≫= _] =>
      let E := fresh "E" in
      destruct (label_get_in_range l i) as (? & E); [lia|];
      rewrite E, bind_Done; clear E
  | |- context [string_at ?l ?i ≫= _] =>
      let E := fresh "E" in
      destruct (string_at_in_range l i) as (? & E); [lia|];
      rewrite E, bind_Done; clear E
  | |- context [let '(_, _) := ?p in _] => destruct p
  end.

Lemma updateUI_day_completes i w d :
  (i < 6)%nat →
  days w !! i = Some d →
  (3 ≤ length (split dash (mDate d)))%nat →
  sixColumns w →
  ∃ w', updateUI_day i w = Done w' ∧ sixColumns w'.
Proof.
  intros Hi Hd Hs (H1 & H2 & H3 & H4 & H5 & H6 & H7).
  unfold updateUI_day, day_at. rewrite Hd, bind_Done.
  repeat step_done.
  eexists. split; [reflexivity|]. unfold sixColumns; simpl.
  repeat split; lia.
Qed.

Lemma for_range_updateUI_day_completes n : ∀ i w,
  (i + n ≤ 6)%nat →
  (6 ≤ length (days w))%nat →
  datesSplit (days w) →
  sixColumns w →
  ∃ w', for_range i n updateUI_day w = Done w'.
Proof.
  induction n as [|n IH]; intros i w Hi Hlen Hdates Hcols; simpl.
  - eauto.
  - destruct (lookup_lt_is_Some_2 (days w) i ltac:(lia)) as [d Hd].
    destruct (updateUI_day_completes i w d) as (w1 & Hrun & Hcols1);
      [lia | done | by apply (Hdates i); [lia|] | done |].
    rewrite Hrun, bind_Done.
    apply updateUI_day_frame in Hrun as (Hdays & _).
    apply IH; [lia | by rewrite Hdays | by rewrite Hdays | done].
Qed.

(** The refresh runs to its end when the window has its six columns and
    the first six stored dates have three parts; it then shows the members
    of [days[0]] in the summary labels and asks for a repaint. *)
Lemma updateUI_completes w d0 :
  days w !! 0%nat = Some d0 →
  (6 ≤ length (days w))%nat →
  datesSplit (days w) →
  sixColumns w →
  ∃ w',
    updateUI w = Done w'
    ∧ days w' = days w
    ∧ text (labelCity (ui w')) = mCity d0 ++ qs "市"
    ∧ text (labelPM25Data (ui w')) = mPm25 d0
    ∧ text (labelTmp (ui w')) = mTemp d0 ++ qs "℃"
    ∧ log w' = log w ++ [Repaint].
Proof.
  intros H0 Hlen Hdates Hcols.
  unfold updateUI, day_at. rewrite H0, bind_Done.
  destruct (typeMap_at (mWeathType d0) (mTypeMap w)) as [icon0 tm].
  match goal with
  | |- context [for_range 0 6 updateUI_day ?w1] =>
      destruct (for_range_updateUI_day_completes 6 0 w1) as (w2 & Hrun);
        [lia | done | done | done |]
  end.
  rewrite Hrun, bind_Done.
  apply for_range_updateUI_day_frame in Hrun as (Hd & Hu & Hl & _).
  eexists. split; [reflexivity|]. simpl.
  rewrite Hd, Hu, Hl. simpl. done.
Qed.

Lemma datesSplit_insert_same_date ds d0 d0' :
  ds !! 0%nat = Some d0 →
  mDate d0' = mDate d0 →
  datesSplit ds → datesSplit (<[0%nat := d0']> ds).
Proof.
  intros H0 Hm Hds i d Hi Hd.
  destruct (decide (i = 0%nat)) as [->|Hne].
  - rewrite list_lookup_insert_eq in Hd by (by apply lookup_lt_Some in H0).
    injection Hd as <-. rewrite Hm. by apply (Hds 0%nat).
  - rewrite list_lookup_insert_ne in Hd by done. by apply (Hds i).
Qed.

(** C4, as the code has it: a 200 answer that is a JSON object with an
    empty [data] array writes the payload's [city] and [aqi.pm25] into
    [days[0].mCity] and [days[0].mPm25], leaves every other stored member
    unchanged, and refreshes the labels from the stored records, so that
    the city and PM2.5 labels show the payload's values; the refresh runs to
    its end when the window has its six columns and each of the six stored
    dates has at least three "-"-separated parts. *)
Theorem readHttpReply_empty_data (reply : QNetworkReply) (w : Widget)
  (root : gmap QString QJsonValue) (d0 : Day) :
  error reply = NoError →
  HttpStatusCodeAttribute reply = 200 →
  readAll reply = Some (Object root) →
  root !! qs "data" = Some (Array []) →
  days w !! 0%nat = Some d0 →
  (6 ≤ length (days w))%nat →
  datesSplit (days w) →
  sixColumns w →
  let city := toString (member (qs "city") root) in
  let pm25 :=
    toString (member (qs "pm25") (toObject (member (qs "aqi") root))) in
  ∃ w',
    readHttpReply reply w = Done w'
    ∧ days w' = <[0%nat := set_mPm25 pm25 (set_mCity city d0)]> (days w)
    ∧ text (labelCity (ui w')) = city ++ qs "市"
    ∧ text (labelPM25Data (ui w')) = pm25
    ∧ log w' = log w ++ [Repaint].
Proof.
  intros He Hs Hb Hdata H0 Hlen Hdates Hcols city pm25.
  unfold readHttpReply. rewrite He, Hs, Hb. simpl andb. cbv iota.
  rewrite (parseWeatherJsonDataNew_object _ _ _ H0). cbv zeta.
  assert (Hc : contains (qs "data") root = true).
  { unfold contains. rewrite Hdata. apply bool_decide_eq_true_2. eauto. }
  assert (Hm : member (qs "data") root = Array []).
  { unfold member. by rewrite Hdata. }
  rewrite Hc, Hm. simpl andb. cbv iota. simpl parseDays. rewrite bind_Done.
  fold city. fold pm25.
  destruct (updateUI_completes
              (set_days (<[0%nat := set_mPm25 pm25 (set_mCity city d0)]>
                           (days w)) w)
              (set_mPm25 pm25 (set_mCity city d0)))
    as (w' & Hrun & Hd & Hcity & Hpm & _ & Hlog).
  - simpl. apply list_lookup_insert_eq. by apply lookup_lt_Some in H0.
  - simpl. by rewrite length_insert.
  - simpl. by apply (datesSplit_insert_same_date _ d0).
  - exact Hcols.
  - exists w'. split; [exact Hrun|]. split; [exact Hd|].
    split; [exact Hcity|]. split; [exact Hpm|]. exact Hlog.
Qed.


Lemma loadedWidget_datesSplit : datesSplit (days loadedWidget).
Proof.
  intros i d Hi Hd. vm_compute in Hd.
  do 6 (destruct i as [|i]; [injection Hd as <-; vm_compute; lia|]). lia.
Qed.

Lemma loadedWidget_sixColumns : sixColumns loadedWidget.
Proof. vm_compute. repeat split; lia. Qed.

Lemma readHttpReply_empty_data_witness :
  ∃ w',
    readHttpReply (okReply emptyDataForecast) loadedWidget = Done w'
    ∧ text (labelCity (ui w')) = qs "上海市"
    ∧ text (labelPM25Data (ui w')) = qs "12".
Proof.
  destruct (readHttpReply_empty_data (okReply emptyDataForecast) loadedWidget
              emptyDataRoot (default emptyDay (days loadedWidget !! 0%nat)))
    as (w' & Hrun & _ & Hcity & Hpm & _).
  - reflexivity.
  - reflexivity.
  - reflexivity.
  - reflexivity.
  - vm_compute. reflexivity.
  - vm_compute. lia.
  - apply loadedWidget_datesSplit.
  - apply loadedWidget_sixColumns.
  - exists w'. split; [exact Hrun|]. split; [exact Hcity | exact Hpm].
Defined.

(** C4 as stated fails: after a six-day forecast for 北京 has been shown, a
    200 answer with [city] 上海 and an empty [data] array changes the city
    label to 上海市 while the temperature label keeps the old record. *)
Lemma readHttpReply_empty_data_changes_display :
  afterSampleForecast = Some loadedWidget
  ∧ text (labelCity (ui loadedWidget)) = qs "北京市"
  ∧ (λ w', (text (labelCity (ui w')), text (labelTmp (ui w'))))
      <$> result (readHttpReply (okReply emptyDataForecast) loadedWidget)
    = Some (qs "上海市", text (labelTmp (ui loadedWidget)))
  ∧ ui <$> result (readHttpReply (okReply emptyDataForecast) loadedWidget)
    ≠ Some (ui loadedWidget).
Proof.
  split; [vm_compute; reflexivity|].
  split; [vm_compute; reflexivity|].
  split; [vm_compute; reflexivity|].
  vm_compute. discriminate.
Qed.

(** ** The day strip icon: theorems *)

Lemma typeMap_at_value (k : QString) (m : gmap QString QString) :
  (typeMap_at k m).1 = default [] (m !! k).
Proof. unfold typeMap_at. by destruct (m !! k). Qed.

(** Reading a missing key inserts an empty path, which is what a missing
    key reads as. *)
Lemma typeMap_at_reads (k k' : QString) (m : gmap QString QString) :
  default [] ((typeMap_at k m).2 !! k') = default [] (m !! k').
Proof.
  unfold typeMap_at. destruct (m !! k) eqn:E; simpl; [done|].
  destruct (decide (k = k')) as [<-|Hne].
  - by rewrite lookup_insert_eq, E.
  - by rewrite lookup_insert_ne.
Qed.

Lemma label_at_inv l i g l' :
  label_at l i g = Done l' →
  ∃ lb, l !! i = Some lb ∧ l' = <[i := g lb]> l.
Proof.
  unfold label_at. destruct (l !! i) eqn:E; [|discriminate].
  intros [= <-]. eauto.
Qed.

Lemma day_at_inv ds i d : day_at ds i = Done d → ds !! i = Some d.
Proof. unfold day_at. destruct (ds !! i); congruence. Qed.

(** Whatever the condition text, a round of the refresh loop shows in column
    [i] the icon stored under the whole text (none when the whole text is not
    a key of the table) and the whole text as caption. *)
Lemma updateUI_day_icon i w w' d :
  updateUI_day i w = Done w' →
  days w !! i = Some d →
  pixmap <$> mIconList w' !! i = Some (default [] (mTypeMap w !! mWeathType d))
  ∧ text <$> mWeaTypeList w' !! i = Some (mWeathType d).
Proof.
  intros H Hd. unfold updateUI_day in H.
  apply bind_inv_Done in H as (d' & Hd' & H).
  apply day_at_inv in Hd'. rewrite Hd in Hd'. injection Hd' as <-.
  do 7 (apply bind_inv_Done in H as (? & _ & H)).
  set (tm0 := if bool_decide (indexOf (qs "转") (mWeathType d) ≠ -1)
              then typeMap_at (right (indexOf (qs "转") (mWeathType d))
                                 (mWeathType d)) (mTypeMap w)
              else typeMap_at (mWeathType d) (mTypeMap w)) in H.
  assert (Htm0 : default [] (tm0.2 !! mWeathType d)
                 = default [] (mTypeMap w !! mWeathType d)).
  { unfold tm0. case_bool_decide; apply typeMap_at_reads. }
  destruct tm0 as [pixmap0 tm1]. simpl in Htm0.
  pose proof (typeMap_at_reads (mWeathType d) (mWeathType d) tm1) as Htm1.
  destruct (typeMap_at (mWeathType d) tm1) as [pixmap1 tm2]. simpl in Htm1.
  apply bind_inv_Done in H as (? & _ & H).
  apply bind_inv_Done in H as (il & Hil & H).
  pose proof (typeMap_at_value (mWeathType d) tm2) as Hicon.
  destruct (typeMap_at (mWeathType d) tm2) as [icon tm3]. simpl in Hicon.
  apply bind_inv_Done in H as (il' & Hil' & H).
  apply bind_inv_Done in H as (tl & Htl & H).
  do 4 (apply bind_inv_Done in H as (? & _ & H)).
  injection H as <-. simpl.
  apply label_at_inv in Hil as (lb & Hlb & ->).
  apply label_at_inv in Hil' as (lb' & Hlb' & ->).
  apply label_at_inv in Htl as (lt & Hlt & ->).
  apply lookup_lt_Some in Hlb, Hlt.
  rewrite list_insert_insert_eq, !list_lookup_insert_eq by done.
  simpl. split; [|done]. by rewrite Hicon, Htm1, Htm0.
Qed.

(** C5 at the first day of the sample forecast, whose condition is
    "多云转晴": the caption is the whole text, and the icon is the one stored
    under the whole text, which is none, not the icon of "晴" that follows
    "转". *)
Theorem updateUI_icon_ignores_transition :
  mWeathType <$> days loadedWidget !! 0%nat = Some (qs "多云转晴")
  ∧ text <$> mWeaTypeList loadedWidget !! 0%nat = Some (qs "多云转晴")
  ∧ mTypeMap sampleWidget !! qs "晴" = Some (qs ":/type/Qing.png")
  ∧ mTypeMap sampleWidget !! qs "多云转晴" = None
  ∧ pixmap <$> mIconList loadedWidget !! 0%nat = Some (qs "")
  ∧ pixmap <$> mIconList loadedWidget !! 1%nat = Some (qs ":/type/Qing.png").
Proof. repeat split; vm_compute; reflexivity. Qed.

(** ** The submit slot: theorems *)

Lemma requestUrls_emit e w :
  requestUrls (log (emit e w))
  = requestUrls (log w)
    ++ match e with HttpGet u => [u] | _ => [] end.
Proof.
  unfold requestUrls. simpl. rewrite omap_app. by destruct e.
Qed.

Lemma messageBoxes_emit e w :
  messageBoxes (log (emit e w))
  = messageBoxes (log w)
    ++ match e with MessageBox t b => [(t, b)] | _ => [] end.
Proof.
  unfold messageBoxes. simpl. rewrite omap_app. by destruct e.
Qed.

Section SubmitFacts.

Variable citycode_json : QByteArray.

(** C7: a submission whose resolution returns the empty string shows the
    error box "请输入正确的城市名称", issues no request and leaves the
    stored records, the labels, the request string and the icon table as
    they were (the resolver keeps the table it has just loaded, and is
    unchanged when it already held one); a submission whose resolution
    returns a code issues exactly one GET, for the request string extended
    by that code, and shows no box. *)
Theorem on_LineEditCity_clicked_outcome (w : Widget) :
  let r :=
    getCityCodeFromName citycode_json (lineEditCity (ui w))
      (cityCodeUtils w) in
  let w' := on_LineEditCity_clicked citycode_json w in
  (r.1 = qs "" →
     w' = emit (MessageBox (qs "错误") (qs "请输入正确的城市名称"))
            (set_cityCodeUtils r.2 w)
     ∧ requestUrls (log w') = requestUrls (log w)
     ∧ messageBoxes (log w')
       = messageBoxes (log w) ++ [(qs "错误", qs "请输入正确的城市名称")]
     ∧ days w' = days w ∧ ui w' = ui w ∧ strUrl w' = strUrl w
     ∧ mTypeMap w' = mTypeMap w
     ∧ (CityMap (cityCodeUtils w) ≠ ∅ →
        w' = emit (MessageBox (qs "错误") (qs "请输入正确的城市名称")) w))
  ∧ (r.1 ≠ qs "" →
     log w' = log w ++ [HttpGet (strUrl w ++ qs "&cityid=" ++ r.1)]
     ∧ requestUrls (log w')
       = requestUrls (log w) ++ [strUrl w ++ qs "&cityid=" ++ r.1]
     ∧ messageBoxes (log w') = messageBoxes (log w)
     ∧ days w' = days w ∧ ui w' = ui w).
Proof.
  cbv zeta. unfold on_LineEditCity_clicked.
  pose proof (getCityCodeFromName_loaded citycode_json (lineEditCity (ui w))
                (cityCodeUtils w)) as Hloaded.
  destruct (getCityCodeFromName citycode_json (lineEditCity (ui w))
              (cityCodeUtils w)) as [cityCode utils].
  simpl fst. simpl snd. simpl in Hloaded. split.
  - intros ->. change (qs "") with (@nil N).
    rewrite bool_decide_eq_false_2 by (intros H; by apply H).
    split; [reflexivity|].
    rewrite requestUrls_emit, messageBoxes_emit, app_nil_r.
    repeat (split; [reflexivity|]).
    intros Hne. rewrite (Hloaded Hne). by destruct w.
  - intros Hne. rewrite bool_decide_eq_true_2 by exact Hne.
    rewrite requestUrls_emit, messageBoxes_emit, app_nil_r.
    repeat (split; [reflexivity|]). reflexivity.
Qed.

End SubmitFacts.

Lemma on_LineEditCity_clicked_outcome_witness :
  requestUrls
    (log (on_LineEditCity_clicked sampleCities
            (typeCity (qs "北京") sampleWidget)))
  = [baseUrl; baseUrl ++ qs "&cityid=101010100"].
Proof.
  pose proof (on_LineEditCity_clicked_outcome sampleCities
                (typeCity (qs "北京") sampleWidget)) as H.
  cbv zeta in H. destruct H as [_ H].
  destruct H as (_ & H & _).
  - vm_compute. discriminate.
  - etransitivity; [exact H|]. vm_compute. reflexivity.
Defined.

(** C6 at two submissions in a row: the request string keeps the first
    [cityid] parameter, and the second request carries two of them. *)
Theorem second_submit_repeats_cityid :
  requestUrls
    (log (submitAll sampleCities [qs "北京"; qs "上海"] sampleWidget))
  = [ baseUrl;
      baseUrl ++ qs "&cityid=101010100";
      baseUrl ++ qs "&cityid=101010100" ++ qs "&cityid=101020100" ].
Proof. vm_compute. reflexivity. Qed.

#[local] Arguments qs : simpl never.

(** ** The dataset load: further theorems *)

Lemma insertCity_lookup m val name :
  insertCity m val !! name
  = match cityEntry val with
    | Some (n, c) => if decide (n = name) then Some c else m !! name
    | None => m !! name
    end.
Proof.
  unfold insertCity, cityEntry. destruct (isObject val); [|done].
  destruct (decide (_ = name)) as [<-|Hne].
  - by rewrite lookup_insert_eq.
  - by rewrite lookup_insert_ne.
Qed.

Lemma foldl_insertCity_lookup citys : ∀ m name,
  foldl insertCity m citys !! name
  = match datasetCode citys name with
    | Some c => Some c
    | None => m !! name
    end.
Proof.
  induction citys as [|val citys IH] using rev_ind; intros m name.
  - reflexivity.
  - rewrite foldl_app. simpl. rewrite insertCity_lookup, IH.
    unfold datasetCode. rewrite omap_app. simpl.
    destruct (cityEntry val) as [[n c]|]; simpl.
    + destruct (decide (n = name)); simpl.
      * by rewrite last_snoc.
      * by rewrite app_nil_r.
    + by rewrite app_nil_r.
Qed.

Section DatasetFacts.

Variable citycode_json : QByteArray.

Lemma InitCityMap_table (u : CityCodeUtils) (name : QString) :
  CityMap (InitCityMap citycode_json u) !! name
  = match datasetCode (doc_array (fromJson citycode_json)) name with
    | Some c => Some c
    | None => CityMap u !! name
    end.
Proof.
  unfold InitCityMap. simpl.
  destruct (fromJson citycode_json) as [|citys|o]; simpl; try done.
  apply foldl_insertCity_lookup.
Qed.

(** X1: [InitCityMap] stores under every name the code of the last object
    of the dataset array that carries it, skips the elements that are not
    objects, and keeps the entries of the names the dataset does not carry;
    with a dataset that is not an array it leaves the table as it is. *)
Theorem InitCityMap_lookup (u : CityCodeUtils) (name : QString) :
  CityMap (InitCityMap citycode_json u) !! name
  = match datasetCode (doc_array (fromJson citycode_json)) name with
    | Some c => Some c
    | None => CityMap u !! name
    end.
Proof. apply InitCityMap_table. Qed.

(** X2: on a resolver that has not loaded yet, the result is decided by the
    dataset alone: the code the dataset gives to [n], else to [n] followed
    by "市", else "县", else "区", else the empty string (also when the
    dataset is missing or malformed). *)
Theorem getCityCodeFromName_fresh (n : QString) :
  let D := datasetCode (doc_array (fromJson citycode_json)) in
  (getCityCodeFromName citycode_json n CityCodeUtils_new).1
  = match D n with
    | Some c => c
    | None =>
        match D (n ++ qs "市") with
        | Some c => c
        | None =>
            match D (n ++ qs "县") with
            | Some c => c
            | None => default [] (D (n ++ qs "区"))
            end
        end
    end.
Proof.
  cbv zeta. rewrite getCityCodeFromName_code. cbv zeta.
  assert (Htab : ∀ k,
    tableAtLookup citycode_json CityCodeUtils_new !! k
    = datasetCode (doc_array (fromJson citycode_json)) k).
  { intros k. unfold tableAtLookup.
    destruct (decide (CityMap CityCodeUtils_new = ∅)) as [_|Hne];
      [|by destruct Hne].
    rewrite InitCityMap_table.
    change (CityMap CityCodeUtils_new) with (∅ : gmap QString QString).
    rewrite lookup_empty. by destruct (datasetCode _ k). }
  rewrite !Htab. reflexivity.
Qed.

(** X3: when the dataset is not a JSON array (missing, malformed, or an
    object), every lookup of a run that starts with an empty table returns
    the empty string and the table stays empty. *)
Theorem getCityCodes_without_dataset (names : list QString)
  (u : CityCodeUtils) :
  doc_isArray (fromJson citycode_json) = false →
  CityMap u = ∅ →
  (getCityCodes citycode_json names u).1 = replicate (length names) []
  ∧ CityMap (getCityCodes citycode_json names u).2 = ∅.
Proof.
  intros Hdoc. revert u. induction names as [|n names IH]; intros u He.
  - done.
  - simpl.
    pose proof (getCityCodeFromName_table citycode_json n u) as Ht.
    pose proof (getCityCodeFromName_code citycode_json n u) as Hc.
    assert (Htab : tableAtLookup citycode_json u = ∅).
    { unfold tableAtLookup, InitCityMap. simpl. rewrite Hdoc, He.
      by destruct (decide _). }
    rewrite Htab in Ht, Hc. cbv zeta in Hc. rewrite !lookup_empty in Hc.
    destruct (getCityCodeFromName citycode_json n u) as [c u1].
    simpl in Ht, Hc. subst c.
    destruct (IH u1 Ht) as [IH1 IH2].
    destruct (getCityCodes citycode_json names u1) as [cs u2].
    simpl in *. by rewrite IH1.
Qed.

End DatasetFacts.

Lemma getCityCodes_without_dataset_witness :
  (getCityCodes brokenCities [qs "北京"; qs "上海"] CityCodeUtils_new).1
  = [[]; []].
Proof.
  apply (getCityCodes_without_dataset brokenCities [qs "北京"; qs "上海"]
           CityCodeUtils_new); reflexivity.
Defined.

(** ** Runs of submissions: further theorems *)

Section SubmitRuns.

Variable citycode_json : QByteArray.

(** One submission, member by member. *)
Lemma submit_members q w :
  let r := getCityCodeFromName citycode_json q (cityCodeUtils w) in
  let w' := submit citycode_json q w in
  strUrl w'
  = strUrl w ++ (if decide (r.1 = []) then [] else qs "&cityid=" ++ r.1)
  ∧ cityCodeUtils w' = r.2
  ∧ days w' = days w
  ∧ mTypeMap w' = mTypeMap w
  ∧ log w'
    = log w ++ [if decide (r.1 = [])
                then errorBox (qs "请输入正确的城市名称")
                else HttpGet (strUrl w')].
Proof.
  cbv zeta. unfold submit, on_LineEditCity_clicked.
  change (lineEditCity (ui (typeCity q w))) with q.
  change (cityCodeUtils (typeCity q w)) with (cityCodeUtils w).
  destruct (getCityCodeFromName citycode_json q (cityCodeUtils w))
    as [c u1]. simpl fst. simpl snd.
  destruct (decide (c = [])) as [->|Hc].
  - rewrite bool_decide_eq_false_2 by (intros H; by apply H).
    cbn [strUrl cityCodeUtils days mTypeMap log emit set_cityCodeUtils
         typeCity set_ui].
    by rewrite app_nil_r.
  - rewrite bool_decide_eq_true_2 by done.
    cbn [strUrl cityCodeUtils days mTypeMap log emit set_cityCodeUtils
         set_strUrl typeCity set_ui].
    done.
Qed.

Lemma submitAll_cons q queries w :
  submitAll citycode_json (q :: queries) w
  = submitAll citycode_json queries (submit citycode_json q w).
Proof. reflexivity. Qed.

Lemma getCityCodes_cons q queries u :
  getCityCodes citycode_json (q :: queries) u
  = let r := getCityCodeFromName citycode_json q u in
    let rs := getCityCodes citycode_json queries r.2 in
    (r.1 :: rs.1, rs.2).
Proof.
  simpl. destruct (getCityCodeFromName citycode_json q u) as [c u1].
  simpl. by destruct (getCityCodes citycode_json queries u1).
Qed.

(** X4: after a run of submissions the request string is the one before
    the run followed by one ["&cityid=<code>"] for every submission that
    resolved, in order (submissions that did not resolve add nothing); the
    resolver is the one the same run of lookups leaves; the stored records
    and the icon table are untouched. *)
Theorem submitAll_strUrl (queries : list QString) (w : Widget) :
  let r := getCityCodes citycode_json queries (cityCodeUtils w) in
  let w' := submitAll citycode_json queries w in
  strUrl w' = strUrl w ++ cityParams r.1
  ∧ cityCodeUtils w' = r.2
  ∧ days w' = days w
  ∧ mTypeMap w' = mTypeMap w.
Proof.
  cbv zeta. revert w. induction queries as [|q queries IH]; intros w.
  - unfold cityParams. simpl. by rewrite app_nil_r.
  - rewrite submitAll_cons, getCityCodes_cons. cbv zeta.
    destruct (IH (submit citycode_json q w)) as (H1 & H2 & H3 & H4).
    destruct (submit_members q w) as (S1 & S2 & S3 & S4 & _).
    rewrite S2 in H1, H2. rewrite H1, H2, H3, H4, S1, S3, S4.
    split; [|done]. cbn [fst snd]. unfold cityParams.
    destruct (decide _) as [E|E].
    + rewrite E, filter_cons_False by (intros H; by apply H).
      by rewrite app_nil_r.
    + rewrite filter_cons_True by done. rewrite fmap_cons. simpl concat.
      by rewrite <- !app_assoc.
Qed.

(** X5: every submission has exactly one visible effect, a GET or the
    error box: a run of [n] submissions appends [n] effects, the GETs as
    many as there are resolved names and the boxes as many as there are
    unresolved ones. *)
Theorem submitAll_effects (queries : list QString) (w : Widget) :
  let codes := (getCityCodes citycode_json queries (cityCodeUtils w)).1 in
  let w' := submitAll citycode_json queries w in
  length (log w') = (length (log w) + length queries)%nat
  ∧ length (requestUrls (log w'))
    = (length (requestUrls (log w))
       + length (filter (λ c, c ≠ []) codes))%nat
  ∧ length (messageBoxes (log w'))
    = (length (messageBoxes (log w))
       + length (filter (λ c, c = []) codes))%nat.
Proof.
  cbv zeta. revert w. induction queries as [|q queries IH]; intros w.
  - simpl. lia.
  - rewrite submitAll_cons, getCityCodes_cons. cbv zeta.
    destruct (IH (submit citycode_json q w)) as (H1 & H2 & H3).
    destruct (submit_members q w) as (_ & S2 & _ & _ & S5).
    rewrite S2 in H2, H3. rewrite H1, H2, H3, S5. cbn [fst snd].
    unfold requestUrls, messageBoxes.
    rewrite !omap_app, !length_app.
    destruct (decide _) as [E|E].
    + rewrite E, filter_cons_False by (intros H; by apply H).
      rewrite (filter_cons_True (λ c, c = [])) by done. simpl. lia.
    + rewrite filter_cons_True by done.
      rewrite (filter_cons_False (λ c, c = [])) by done. simpl. lia.
Qed.

End SubmitRuns.

(** ** The label refresh, column by column *)

Lemma label_at_alter l i g l' :
  label_at l i g = Done l' → l' = alter g i l ∧ (i < length l)%nat.
Proof.
  intros H. apply label_at_inv in H as (lb & Hlb & ->).
  split; [|by apply lookup_lt_Some in Hlb].
  rewrite list_insert_alter. apply list_alter_ext; [|done].
  intros x Hx. congruence.
Qed.

Lemma string_at_inv l i s : string_at l i = Done s → l !! i = Some s.
Proof. unfold string_at. destruct (l !! i); congruence. Qed.

(** A lookup in the icon table leaves every entry it finds as it is, and
    what it adds reads as the empty path. *)
Lemma typeMap_at_keeps (k k' : QString) (m : gmap QString QString) v :
  m !! k' = Some v → (typeMap_at k m).2 !! k' = Some v.
Proof.
  intros H. unfold typeMap_at. destruct (m !! k) eqn:E; simpl; [done|].
  rewrite lookup_insert_ne; [done|]. intros ->. congruence.
Qed.

Lemma typeMap_at_has (k : QString) (m : gmap QString QString) :
  is_Some ((typeMap_at k m).2 !! k).
Proof.
  unfold typeMap_at. destruct (m !! k) eqn:E; simpl; [by rewrite E|].
  rewrite lookup_insert_eq. eauto.
Qed.

(** One round of the refresh loop, list by list. *)
Lemma updateUI_day_Done i w w' :
  updateUI_day i w = Done w' →
  ∃ d p1 p2,
    days w !! i = Some d
    ∧ split dash (mDate d) !! 1%nat = Some p1
    ∧ split dash (mDate d) !! 2%nat = Some p2
    ∧ mWeekList w' = weekFixed (alter (setText (mWeek d)) i (mWeekList w))
    ∧ mDateList w' = alter (setText (p1 ++ qs "-" ++ p2)) i (mDateList w)
    ∧ mIconList w'
      = alter (λ lb, setPixmap (default [] (mTypeMap w !! mWeathType d))
                       (setMaximumSize 78 62 lb)) i (mIconList w)
    ∧ mWeaTypeList w' = alter (setText (mWeathType d)) i (mWeaTypeList w)
    ∧ mAirqList w'
      = alter (λ lb, airqStyle (mAirq d) (setText (mAirq d) lb)) i
          (mAirqList w)
    ∧ mFxList w' = alter (setText (mFx d)) i (mFxList w)
    ∧ mFlList w' = alter (setText (mFl d)) i (mFlList w)
    ∧ (∀ k, default [] (mTypeMap w' !! k) = default [] (mTypeMap w !! k))
    ∧ (∀ k v, mTypeMap w !! k = Some v → mTypeMap w' !! k = Some v)
    ∧ is_Some (mTypeMap w' !! mWeathType d).
Proof.
  intros H. unfold updateUI_day in H.
  apply bind_inv_Done in H as (d & Hd & H). apply day_at_inv in Hd.
  apply bind_inv_Done in H as (wl1 & Hw1 & H).
  apply bind_inv_Done in H as (wl2 & Hw2 & H).
  apply bind_inv_Done in H as (wl3 & Hw3 & H).
  apply bind_inv_Done in H as (wl4 & Hw4 & H).
  apply bind_inv_Done in H as (p1 & Hp1 & H).
  apply bind_inv_Done in H as (p2 & Hp2 & H).
  apply bind_inv_Done in H as (dl & Hdl & H).
  apply string_at_inv in Hp1, Hp2.
  apply label_at_alter in Hw1 as [-> _], Hw2 as [-> _], Hw3 as [-> _],
    Hw4 as [-> _], Hdl as [-> _].
  set (tm0 := if bool_decide (indexOf (qs "转") (mWeathType d) ≠ -1)
              then typeMap_at (right (indexOf (qs "转") (mWeathType d))
                                 (mWeathType d)) (mTypeMap w)
              else typeMap_at (mWeathType d) (mTypeMap w)) in H.
  assert (Hr0 : ∀ k, default [] (tm0.2 !! k) = default [] (mTypeMap w !! k)).
  { intros k. unfold tm0. case_bool_decide; apply typeMap_at_reads. }
  assert (Hk0 : ∀ k v, mTypeMap w !! k = Some v → tm0.2 !! k = Some v).
  { intros k v Hv. unfold tm0. case_bool_decide; by apply typeMap_at_keeps. }
  destruct tm0 as [pixmap0 tm1]. simpl in Hr0, Hk0.
  pose proof (typeMap_at_reads (mWeathType d)) as Hr1.
  pose proof (typeMap_at_keeps (mWeathType d)) as Hk1.
  pose proof (typeMap_at_has (mWeathType d) tm1) as Hh1.
  specialize (λ k, Hr1 k tm1). specialize (λ k, Hk1 k tm1).
  destruct (typeMap_at (mWeathType d) tm1) as [pixmap1 tm2].
  simpl in Hr1, Hk1, Hh1.
  apply bind_inv_Done in H as (? & _ & H).
  apply bind_inv_Done in H as (il & Hil & H).
  pose proof (typeMap_at_value (mWeathType d) tm2) as Hicon.
  pose proof (typeMap_at_reads (mWeathType d)) as Hr2.
  pose proof (typeMap_at_keeps (mWeathType d)) as Hk2.
  specialize (λ k, Hr2 k tm2). specialize (λ k, Hk2 k tm2).
  destruct (typeMap_at (mWeathType d) tm2) as [icon tm3].
  simpl in Hicon, Hr2, Hk2.
  apply bind_inv_Done in H as (il' & Hil' & H).
  apply bind_inv_Done in H as (tl & Htl & H).
  apply bind_inv_Done in H as (al & Hal & H).
  apply bind_inv_Done in H as (al' & Hal' & H).
  apply bind_inv_Done in H as (fx & Hfx & H).
  apply bind_inv_Done in H as (fl & Hfl & H).
  apply label_at_alter in Hil as [-> _], Hil' as [-> _], Htl as [-> _],
    Hal as [-> _], Hal' as [-> _], Hfx as [-> _], Hfl as [-> _].
  injection H as <-. exists d, p1, p2. cbn [days mWeekList mDateList mIconList
    mWeaTypeList mAirqList mFxList mFlList mTypeMap].
  rewrite !list_alter_alter_eq.
  repeat (split; [done|]).
  split.
  { apply list_alter_ext; [|done]. intros lb _.
    unfold compose. by rewrite Hicon, Hr1, Hr0. }
  repeat (split; [done|]).
  split; [intros k; by rewrite Hr2, Hr1, Hr0|].
  split; [intros k v Hv; by apply Hk2, Hk1, Hk0|].
  destruct Hh1 as [v Hv]. exists v. by apply Hk2.
Qed.

Lemma columnAfter_step i n ds g (l l1 l' : list QLabel) d :
  ds !! i = Some d →
  l1 = alter (g d) i l →
  (∀ j, l' !! j = columnAfter (S i) n ds g l1 j) →
  ∀ j, l' !! j = columnAfter i (S n) ds g l j.
Proof.
  intros Hd -> H j. rewrite H. unfold columnAfter.
  destruct (decide (S i ≤ j < S i + n)%nat) as [Hin|Hout].
  - rewrite decide_True by lia.
    rewrite list_lookup_alter_ne by lia. done.
  - destruct (decide (j = i)) as [->|Hne].
    + rewrite decide_True by lia. by rewrite Hd, list_lookup_alter_eq.
    + rewrite decide_False by lia. by rewrite list_lookup_alter_ne.
Qed.

Lemma columnAfter_none i ds g (l : list QLabel) j :
  l !! j = columnAfter i 0 ds g l j.
Proof. unfold columnAfter. by rewrite decide_False by lia. Qed.

Lemma weekFixed_lookup (wl : list QLabel) j :
  weekFixed wl !! j
  = (if decide (j < 3)%nat then setText (weekText [] j) else id) <$> wl !! j.
Proof.
  unfold weekFixed.
  destruct j as [|[|[|j]]].
  - rewrite !list_lookup_alter_ne by lia. by rewrite list_lookup_alter_eq.
  - rewrite list_lookup_alter_ne by lia. rewrite list_lookup_alter_eq.
    by rewrite list_lookup_alter_ne by lia.
  - rewrite list_lookup_alter_eq. by rewrite !list_lookup_alter_ne by lia.
  - rewrite !list_lookup_alter_ne by lia. rewrite decide_False by lia.
    by destruct (wl !! _).
Qed.


Lemma setText_setText s s' lb : setText s (setText s' lb) = setText s lb.
Proof. reflexivity. Qed.

Lemma weekText_ge ds ds' j : (3 ≤ j)%nat → ds !! j = ds' !! j →
  weekText ds j = weekText ds' j.
Proof. intros Hj H. destruct j as [|[|[|j]]]; try lia. simpl. by rewrite H. Qed.

Lemma weekText_lt ds j : (j < 3)%nat → weekText ds j = weekText [] j.
Proof. intros Hj. destruct j as [|[|[|j]]]; try lia; done. Qed.

(** One round on the weekday labels. *)
Lemma weekAfter_round i ds (l : list QLabel) d j :
  ds !! i = Some d →
  weekFixed (alter (setText (mWeek d)) i l) !! j = weekAfter i 1 ds l j.
Proof.
  intros Hd. rewrite weekFixed_lookup. unfold weekAfter.
  destruct (decide (j < 3)%nat) as [Hlt|Hge].
  - rewrite decide_True by lia. rewrite (weekText_lt ds) by done.
    destruct (decide (i = j)) as [->|Hne].
    + rewrite list_lookup_alter_eq. by destruct (l !! j).
    + by rewrite list_lookup_alter_ne.
  - destruct (decide (i = j)) as [->|Hne].
    + rewrite decide_True by lia. rewrite list_lookup_alter_eq.
      destruct (l !! j); [|done]. simpl. f_equal.
      destruct j as [|[|[|j]]]; try lia. simpl. by rewrite Hd.
    + rewrite decide_False by lia. rewrite list_lookup_alter_ne by done.
      by destruct (l !! j).
Qed.

Lemma weekAfter_step i n ds (l l1 l' : list QLabel) :
  (∀ j, l1 !! j = weekAfter i 1 ds l j) →
  (∀ j, l' !! j = if decide (n = 0)%nat then l1 !! j
                  else weekAfter (S i) n ds l1 j) →
  ∀ j, l' !! j = weekAfter i (S n) ds l j.
Proof.
  intros H1 H j. rewrite H. destruct (decide (n = 0%nat)) as [->|Hn].
  - by rewrite H1.
  - unfold weekAfter at 1. rewrite H1. unfold weekAfter.
    repeat case_decide; try lia; by destruct (l !! j).
Qed.

(** The rounds [i .. i+n-1] of the refresh loop, list by list: [M] is any
    table that reads like the icon table before the rounds. *)
Lemma for_range_updateUI_day_Done n : ∀ i w w',
  for_range i n updateUI_day w = Done w' →
  (∀ j, (i ≤ j < i + n)%nat →
        ∃ d, days w !! j = Some d
             ∧ (3 ≤ length (split dash (mDate d)))%nat
             ∧ is_Some (mTypeMap w' !! mWeathType d))
  ∧ (∀ j, mWeekList w' !! j
          = if decide (n = 0)%nat then mWeekList w !! j
            else weekAfter i n (days w) (mWeekList w) j)
  ∧ (∀ j, mDateList w' !! j
          = columnAfter i n (days w) shownDate (mDateList w) j)
  ∧ (∀ j, mIconList w' !! j
          = columnAfter i n (days w) (shownIcon (mTypeMap w))
              (mIconList w) j)
  ∧ (∀ j, mWeaTypeList w' !! j
          = columnAfter i n (days w) shownType (mWeaTypeList w) j)
  ∧ (∀ j, mAirqList w' !! j
          = columnAfter i n (days w) shownAirq (mAirqList w) j)
  ∧ (∀ j, mFxList w' !! j = columnAfter i n (days w) shownFx (mFxList w) j)
  ∧ (∀ j, mFlList w' !! j = columnAfter i n (days w) shownFl (mFlList w) j)
  ∧ (∀ k, default [] (mTypeMap w' !! k) = default [] (mTypeMap w !! k))
  ∧ (∀ k v, mTypeMap w !! k = Some v → mTypeMap w' !! k = Some v).
Proof.
  induction n as [|n IH]; intros i w w' H; simpl in H.
  - injection H as <-. split; [intros j Hj; lia|].
    split; [done|]. repeat (split; [intros j; apply columnAfter_none|]).
    done.
  - apply bind_inv_Done in H as (w1 & H1 & H).
    pose proof (updateUI_day_frame _ _ _ H1) as (Hdays & _).
    apply updateUI_day_Done in H1
      as (d & p1 & p2 & Hd & Hp1 & Hp2 & Hwk & Hdt & Hic & Hty & Haq & Hfx
          & Hfl & Hr & Hk & Hh).
    apply IH in H as (Hds & Iwk & Idt & Iic & Ity & Iaq & Ifx & Ifl & Ir & Ik).
    rewrite Hdays in Hds, Iwk, Idt, Iic, Ity, Iaq, Ifx, Ifl.
    split; [|split; [|repeat split]].
    + intros j Hj. destruct (decide (j = i)) as [->|Hne].
      * exists d. split; [done|]. split.
        -- apply lookup_lt_Some in Hp2. lia.
        -- destruct Hh as [v Hv]. exists v. by apply Ik.
      * apply Hds. lia.
    + intros j. rewrite decide_False by lia.
      apply (weekAfter_step i n (days w) (mWeekList w) (mWeekList w1)).
      * intros j'. rewrite Hwk. by apply weekAfter_round.
      * exact Iwk.
    + apply (columnAfter_step i n _ _ _ (mDateList w1) _ d); [done| |done].
      rewrite Hdt. unfold shownDate, dateText. rewrite Hp1, Hp2.
      reflexivity.
    + apply (columnAfter_step i n _ _ _ (mIconList w1) _ d); [done|done|].
      intros j. rewrite Iic. unfold columnAfter.
      destruct (decide (S i ≤ j < S i + n)%nat); [|reflexivity].
      destruct (days w !! j); [|reflexivity].
      unfold shownIcon. by rewrite Hr.
    + by apply (columnAfter_step i n _ _ _ (mWeaTypeList w1) _ d).
    + by apply (columnAfter_step i n _ _ _ (mAirqList w1) _ d).
    + by apply (columnAfter_step i n _ _ _ (mFxList w1) _ d).
    + by apply (columnAfter_step i n _ _ _ (mFlList w1) _ d).
    + intros k. by rewrite Ir, Hr.
    + intros k v Hv. by apply Ik, Hk.
Qed.

Lemma columnAfter_all ds g (l : list QLabel) j d :
  (j < 6)%nat → ds !! j = Some d →
  columnAfter 0 6 ds g l j = g d <$> l !! j.
Proof.
  intros Hj Hd. unfold columnAfter. rewrite decide_True by lia.
  by rewrite Hd.
Qed.

Lemma columnAfter_beyond ds g (l : list QLabel) j :
  (6 ≤ j)%nat → columnAfter 0 6 ds g l j = l !! j.
Proof. intros Hj. unfold columnAfter. by rewrite decide_False by lia. Qed.

(** A completed refresh, member by member. *)
Lemma updateUI_Done w w' :
  updateUI w = Done w' →
  ∃ d0,
    days w !! 0%nat = Some d0
    ∧ days w' = days w
    ∧ strUrl w' = strUrl w
    ∧ cityCodeUtils w' = cityCodeUtils w
    ∧ log w' = log w ++ [Repaint]
    ∧ ui w'
      = mkUi
          (setText (mDate d0 ++ qs "  " ++ mWeek d0)
             (labelCurrentDate (ui w)))
          (setText (mCity d0 ++ qs "市") (labelCity (ui w)))
          (setText (mTemp d0 ++ qs "℃") (labelTmp (ui w)))
          (setText (mTempLow d0 ++ qs "℃" ++ qs "~" ++ mTempHigh d0
                    ++ qs "℃") (labelTempRange (ui w)))
          (setText (mWeathType d0) (labelWeatherType (ui w)))
          (setPixmap (default [] (mTypeMap w !! mWeathType d0))
             (labelWeatherIcon (ui w)))
          (setText (mTips d0) (labelGanbao (ui w)))
          (setText (mFx d0) (labelFXType (ui w)))
          (setText (mFl d0) (labelFXData (ui w)))
          (setText (mPm25 d0) (labelPM25Data (ui w)))
          (setText (mHu d0) (labelShiDuData (ui w)))
          (setText (mAirq d0) (labelAirQualityData (ui w)))
          (lineEditCity (ui w)) (widget0404_height (ui w))
          (widget0405_height (ui w))
    ∧ (∀ j, (j < 6)%nat →
            ∃ d, days w !! j = Some d
                 ∧ (3 ≤ length (split dash (mDate d)))%nat
                 ∧ is_Some (mTypeMap w' !! mWeathType d))
    ∧ (∀ j, mWeekList w' !! j = weekAfter 0 6 (days w) (mWeekList w) j)
    ∧ (∀ j, mDateList w' !! j
            = columnAfter 0 6 (days w) shownDate (mDateList w) j)
    ∧ (∀ j, mIconList w' !! j
            = columnAfter 0 6 (days w) (shownIcon (mTypeMap w))
                (mIconList w) j)
    ∧ (∀ j, mWeaTypeList w' !! j
            = columnAfter 0 6 (days w) shownType (mWeaTypeList w) j)
    ∧ (∀ j, mAirqList w' !! j
            = columnAfter 0 6 (days w) shownAirq (mAirqList w) j)
    ∧ (∀ j, mFxList w' !! j
            = columnAfter 0 6 (days w) shownFx (mFxList w) j)
    ∧ (∀ j, mFlList w' !! j
            = columnAfter 0 6 (days w) shownFl (mFlList w) j)
    ∧ (∀ k, default [] (mTypeMap w' !! k) = default [] (mTypeMap w !! k))
    ∧ (∀ k v, mTypeMap w !! k = Some v → mTypeMap w' !! k = Some v).
Proof.
  intros H. unfold updateUI in H.
  apply bind_inv_Done in H as (d0 & Hd0 & H). apply day_at_inv in Hd0.
  pose proof (typeMap_at_value (mWeathType d0) (mTypeMap w)) as Hicon.
  pose proof (typeMap_at_reads (mWeathType d0)) as Hr.
  pose proof (typeMap_at_keeps (mWeathType d0)) as Hk.
  specialize (λ k, Hr k (mTypeMap w)). specialize (λ k, Hk k (mTypeMap w)).
  destruct (typeMap_at (mWeathType d0) (mTypeMap w)) as [icon0 tm].
  simpl in Hicon, Hr, Hk. subst icon0.
  apply bind_inv_Done in H as (w1 & H1 & H). injection H as <-.
  pose proof (for_range_updateUI_day_frame _ _ _ _ H1)
    as (Fd & Fu & Fl & Fs & Fc).
  apply for_range_updateUI_day_Done in H1
    as (Hds & Iwk & Idt & Iic & Ity & Iaq & Ifx & Ifl & Ir & Ik).
  cbn [days mDateList mWeekList mIconList mWeaTypeList mAirqList mFxList
       mFlList ui strUrl cityCodeUtils mTypeMap log set_mTypeMap set_ui
       emit] in *.
  exists d0. rewrite Fd, Fu, Fl, Fs, Fc.
  repeat (split; [done|]).
  split; [intros j Hj; apply Hds; lia|].
  split; [intros j; by rewrite Iwk|].
  split; [done|].
  split.
  { intros j. rewrite Iic. unfold columnAfter.
    destruct (decide (0 ≤ j < 0 + 6)%nat); [|reflexivity].
    destruct (days w !! j); [|reflexivity].
    unfold shownIcon. by rewrite Hr. }
  repeat (split; [done|]).
  split; [intros k; by rewrite Ir, Hr|].
  intros k v Hv. by apply Ik, Hk.
Qed.

Lemma qs_head_ne (a b : string) (x y : N) (l k : list N) :
  qs a = x :: l → qs b = y :: k → x ≠ y → qs a ≠ qs b.
Proof. intros -> -> H [= ?]. done. Qed.

(** The cascade tests one string against five different ones. *)
Lemma cascade_members (a l1 l2 l3 l4 l5 s1 s2 s3 s4 s5 : QString)
  (lb : QLabel) :
  l1 ≠ l2 → l1 ≠ l3 → l1 ≠ l4 → l1 ≠ l5 → l2 ≠ l3 → l2 ≠ l4 → l2 ≠ l5 →
  l3 ≠ l4 → l3 ≠ l5 → l4 ≠ l5 →
  let lb1 := if bool_decide (a = l1) then setStyleSheet s1 lb else lb in
  let lb2 := if bool_decide (a = l2) then setStyleSheet s2 lb1 else lb1 in
  let lb3 := if bool_decide (a = l3) then setStyleSheet s3 lb2 else lb2 in
  let lb4 := if bool_decide (a = l4) then setStyleSheet s4 lb3 else lb3 in
  let lb5 := if bool_decide (a = l5) then setStyleSheet s5 lb4 else lb4 in
  styleSheet lb5
  = default (styleSheet lb)
      (if decide (a = l1) then Some s1
       else if decide (a = l2) then Some s2
       else if decide (a = l3) then Some s3
       else if decide (a = l4) then Some s4
       else if decide (a = l5) then Some s5 else None)
  ∧ text lb5 = text lb ∧ pixmap lb5 = pixmap lb
  ∧ maximumSize lb5 = maximumSize lb ∧ x lb5 = x lb ∧ width lb5 = width lb.
Proof.
  intros ? ? ? ? ? ? ? ? ? ?. cbv zeta.
  repeat case_bool_decide; repeat case_decide; subst; try done;
    try congruence.
Qed.

Lemma airqStyle_members airQ lb :
  styleSheet (airqStyle airQ lb) = default (styleSheet lb) (airqColour airQ)
  ∧ text (airqStyle airQ lb) = text lb
  ∧ pixmap (airqStyle airQ lb) = pixmap lb
  ∧ maximumSize (airqStyle airQ lb) = maximumSize lb
  ∧ x (airqStyle airQ lb) = x lb
  ∧ width (airqStyle airQ lb) = width lb.
Proof.
  apply cascade_members.
  - by apply (qs_head_ne _ _ 20248%N 33391%N [] []).
  - by apply (qs_head_ne _ _ 20248%N 36731%N [] [24230%N]).
  - by apply (qs_head_ne _ _ 20248%N 20013%N [] [24230%N]).
  - by apply (qs_head_ne _ _ 20248%N 37325%N [] [24230%N]).
  - by apply (qs_head_ne _ _ 33391%N 36731%N [] [24230%N]).
  - by apply (qs_head_ne _ _ 33391%N 20013%N [] [24230%N]).
  - by apply (qs_head_ne _ _ 33391%N 37325%N [] [24230%N]).
  - by apply (qs_head_ne _ _ 36731%N 20013%N [24230%N] [24230%N]).
  - by apply (qs_head_ne _ _ 36731%N 37325%N [24230%N] [24230%N]).
  - by apply (qs_head_ne _ _ 20013%N 37325%N [24230%N] [24230%N]).
Qed.

Lemma updateUI_runs w :
  (6 ≤ length (days w))%nat → datesSplit (days w) → sixColumns w →
  ∃ w', updateUI w = Done w'.
Proof.
  intros Hlen Hdates Hcols.
  destruct (lookup_lt_is_Some_2 (days w) 0 ltac:(lia)) as [d0 Hd0].
  destruct (updateUI_completes w d0 Hd0 Hlen Hdates Hcols) as (w' & H & _).
  eauto.
Qed.

(** X6: a refresh that has its six columns and six splittable dates runs
    to its end, and then column [j] shows: as weekday "今天", "明天",
    "后天" in the first three columns whatever weekday is stored, and the
    stored weekday in the other three; as date the second and third
    "-"-separated part of the stored date; as condition, wind direction and
    wind level the stored texts. *)
Theorem updateUI_captions (w : Widget) :
  (6 ≤ length (days w))%nat → datesSplit (days w) → sixColumns w →
  ∃ w',
    updateUI w = Done w'
    ∧ ∀ j d, (j < 6)%nat → days w !! j = Some d →
        text <$> mWeekList w' !! j = Some (weekText (days w) j)
        ∧ text <$> mDateList w' !! j = Some (dateText d)
        ∧ text <$> mWeaTypeList w' !! j = Some (mWeathType d)
        ∧ text <$> mFxList w' !! j = Some (mFx d)
        ∧ text <$> mFlList w' !! j = Some (mFl d).
Proof.
  intros Hlen Hdates Hcols.
  destruct (updateUI_runs w Hlen Hdates Hcols) as [w' Hrun].
  exists w'. split; [exact Hrun|].
  apply updateUI_Done in Hrun
    as (d0 & _ & _ & _ & _ & _ & _ & _ & Iwk & Idt & _ & Ity & _ & Ifx & Ifl
        & _).
  destruct Hcols as (C1 & C2 & C3 & C4 & C5 & C6 & C7).
  intros j d Hj Hd.
  destruct (lookup_lt_is_Some_2 (mWeekList w) j ltac:(lia)) as [l1 E1].
  destruct (lookup_lt_is_Some_2 (mDateList w) j ltac:(lia)) as [l2 E2].
  destruct (lookup_lt_is_Some_2 (mWeaTypeList w) j ltac:(lia)) as [l3 E3].
  destruct (lookup_lt_is_Some_2 (mFxList w) j ltac:(lia)) as [l4 E4].
  destruct (lookup_lt_is_Some_2 (mFlList w) j ltac:(lia)) as [l5 E5].
  rewrite Iwk, Idt, Ity, Ifx, Ifl.
  rewrite !(columnAfter_all _ _ _ j d) by done.
  unfold weekAfter. rewrite decide_True by lia.
  by rewrite E1, E2, E3, E4, E5.
Qed.

(** X7: after a refresh the badge of column [j] reads the stored
    air-quality level; its style sheet is the fixed colour of the level for
    "优", "良", "轻度", "中度" and "重度", and for any other level it is the
    style sheet the badge had before (the colour of an earlier forecast
    stays). *)
Theorem updateUI_airq_badges (w : Widget) :
  (6 ≤ length (days w))%nat → datesSplit (days w) → sixColumns w →
  ∃ w',
    updateUI w = Done w'
    ∧ ∀ j d lb, (j < 6)%nat → days w !! j = Some d →
        mAirqList w !! j = Some lb →
        ∃ lb', mAirqList w' !! j = Some lb'
               ∧ text lb' = mAirq d
               ∧ styleSheet lb'
                 = default (styleSheet lb) (airqColour (mAirq d)).
Proof.
  intros Hlen Hdates Hcols.
  destruct (updateUI_runs w Hlen Hdates Hcols) as [w' Hrun].
  exists w'. split; [exact Hrun|].
  apply updateUI_Done in Hrun
    as (d0 & _ & _ & _ & _ & _ & _ & _ & _ & _ & _ & _ & Iaq & _).
  intros j d lb Hj Hd Hlb. rewrite Iaq.
  rewrite (columnAfter_all _ _ _ j d) by done. rewrite Hlb.
  eexists. split; [reflexivity|]. unfold shownAirq.
  destruct (airqStyle_members (mAirq d) (setText (mAirq d) lb))
    as (-> & -> & _). done.
Qed.

(** X8: the refresh shows in column [j] the icon stored under the whole
    condition text of day [j] (none when the text is not a key) in a label
    of at most 78 by 62; it never changes an entry of the icon table, and
    what it adds are empty paths, among them one for every condition text
    it has shown that was not a key. *)
Theorem updateUI_icons (w : Widget) :
  (6 ≤ length (days w))%nat → datesSplit (days w) → sixColumns w →
  ∃ w',
    updateUI w = Done w'
    ∧ (∀ j d, (j < 6)%nat → days w !! j = Some d →
         pixmap <$> mIconList w' !! j
         = Some (default [] (mTypeMap w !! mWeathType d))
         ∧ maximumSize <$> mIconList w' !! j = Some (Some (78, 62))
         ∧ is_Some (mTypeMap w' !! mWeathType d))
    ∧ (∀ k v, mTypeMap w !! k = Some v → mTypeMap w' !! k = Some v)
    ∧ (∀ k v, mTypeMap w' !! k = Some v →
              mTypeMap w !! k = Some v ∨ (mTypeMap w !! k = None ∧ v = [])).
Proof.
  intros Hlen Hdates Hcols.
  destruct (updateUI_runs w Hlen Hdates Hcols) as [w' Hrun].
  exists w'. split; [exact Hrun|].
  apply updateUI_Done in Hrun
    as (d0 & _ & _ & _ & _ & _ & _ & Hds & _ & _ & Iic & _ & _ & _ & _ & Ir
        & Ik).
  destruct Hcols as (C1 & C2 & C3 & C4 & C5 & C6 & C7).
  split; [|split; [exact Ik|]].
  - intros j d Hj Hd.
    destruct (lookup_lt_is_Some_2 (mIconList w) j ltac:(lia)) as [lb E].
    rewrite Iic, (columnAfter_all _ _ _ j d) by done. rewrite E.
    split; [done|]. split; [done|].
    destruct (Hds j Hj) as (d' & Hd' & _ & Hkey). congruence.
  - intros k v Hv. specialize (Ir k). rewrite Hv in Ir. simpl in Ir.
    destruct (mTypeMap w !! k) as [v'|]; simpl in Ir; subst; eauto.
Qed.

Lemma lookups_length (l l' : list QLabel) (F : nat → option QLabel) :
  (∀ j, l' !! j = F j) → (∀ j, is_Some (F j) ↔ is_Some (l !! j)) →
  length l' = length l.
Proof.
  intros HF Hiff.
  destruct (Nat.lt_trichotomy (length l') (length l)) as [Hlt|[->|Hgt]];
    [|done|].
  - assert (is_Some (l' !! length l')) as [? Hx%lookup_lt_Some]; [|lia].
    rewrite HF, Hiff. by apply lookup_lt_is_Some_2.
  - assert (is_Some (l !! length l)) as [? Hx%lookup_lt_Some]; [|lia].
    rewrite <- Hiff, <- HF. by apply lookup_lt_is_Some_2.
Qed.

Lemma columnAfter_is_Some ds g (l : list QLabel) j :
  is_Some (columnAfter 0 6 ds g l j) ↔ is_Some (l !! j).
Proof.
  unfold columnAfter.
  destruct (decide _); [|done]. destruct (ds !! j); [|done].
  by rewrite fmap_is_Some.
Qed.

(** A refresh keeps the number of labels of every list. *)
Lemma updateUI_columns w w' :
  updateUI w = Done w' → sixColumns w → sixColumns w'.
Proof.
  intros Hrun.
  apply updateUI_Done in Hrun
    as (d0 & _ & _ & _ & _ & _ & _ & _ & Iwk & Idt & Iic & Ity & Iaq
        & Ifx & Ifl & _).
  intros (C1 & C2 & C3 & C4 & C5 & C6 & C7). unfold sixColumns.
  rewrite (lookups_length _ _ _ Idt (columnAfter_is_Some _ _ _)),
    (lookups_length _ _ _ Iic (columnAfter_is_Some _ _ _)),
    (lookups_length _ _ _ Ity (columnAfter_is_Some _ _ _)),
    (lookups_length _ _ _ Iaq (columnAfter_is_Some _ _ _)),
    (lookups_length _ _ _ Ifx (columnAfter_is_Some _ _ _)),
    (lookups_length _ _ _ Ifl (columnAfter_is_Some _ _ _)).
  rewrite (lookups_length (mWeekList w) _ _ Iwk).
  - done.
  - intros j. unfold weekAfter. destruct (decide _); [|done].
    by rewrite fmap_is_Some.
Qed.

(** X9: a refresh that runs to its end leaves the stored records, the
    request string and the resolver alone, asks for exactly one repaint and
    keeps the six columns: it sends no request and shows no box. *)
Theorem updateUI_frame (w w' : Widget) :
  updateUI w = Done w' →
  days w' = days w
  ∧ strUrl w' = strUrl w
  ∧ cityCodeUtils w' = cityCodeUtils w
  ∧ log w' = log w ++ [Repaint]
  ∧ (sixColumns w → sixColumns w').
Proof.
  intros Hrun.
  pose proof (updateUI_columns _ _ Hrun) as Hcols.
  apply updateUI_Done in Hrun as (d0 & _ & Hd & Hs & Hc & Hl & _).
  done.
Qed.

Lemma loadedWidget_days : (6 ≤ length (days loadedWidget))%nat.
Proof. vm_compute. lia. Qed.

Lemma updateUI_captions_witness :
  ∃ w', updateUI loadedWidget = Done w'
        ∧ text <$> mDateList w' !! 1%nat = Some (qs "03-02").
Proof.
  destruct (updateUI_captions loadedWidget loadedWidget_days
              loadedWidget_datesSplit loadedWidget_sixColumns)
    as (w' & Hrun & Hcap).
  exists w'. split; [exact Hrun|].
  destruct (Hcap 1%nat (default emptyDay (days loadedWidget !! 1%nat)))
    as (_ & Hd & _).
  - lia.
  - vm_compute. reflexivity.
  - rewrite Hd. vm_compute. reflexivity.
Defined.

Lemma updateUI_airq_badges_witness :
  ∃ w' lb', updateUI loadedWidget = Done w'
            ∧ mAirqList w' !! 1%nat = Some lb'
            ∧ text lb' = qs "良".
Proof.
  destruct (updateUI_airq_badges loadedWidget loadedWidget_days
              loadedWidget_datesSplit loadedWidget_sixColumns)
    as (w' & Hrun & Hbadge).
  destruct (Hbadge 1%nat (default emptyDay (days loadedWidget !! 1%nat))
              (default blankLabel (mAirqList loadedWidget !! 1%nat)))
    as (lb' & Hlb & Ht & _).
  - lia.
  - vm_compute. reflexivity.
  - vm_compute. reflexivity.
  - exists w', lb'. split; [exact Hrun|]. split; [exact Hlb|].
    rewrite Ht. vm_compute. reflexivity.
Defined.

Lemma updateUI_icons_witness :
  ∃ w', updateUI loadedWidget = Done w'
        ∧ pixmap <$> mIconList w' !! 1%nat = Some (qs ":/type/Qing.png").
Proof.
  destruct (updateUI_icons loadedWidget loadedWidget_days
              loadedWidget_datesSplit loadedWidget_sixColumns)
    as (w' & Hrun & Hicon & _).
  exists w'. split; [exact Hrun|].
  destruct (Hicon 1%nat (default emptyDay (days loadedWidget !! 1%nat)))
    as (Hp & _).
  - lia.
  - vm_compute. reflexivity.
  - rewrite Hp. vm_compute. reflexivity.
Defined.

Lemma updateUI_frame_witness :
  ∃ w', updateUI loadedWidget = Done w'
        ∧ days w' = days loadedWidget
        ∧ log w' = log loadedWidget ++ [Repaint].
Proof.
  destruct (updateUI_runs loadedWidget loadedWidget_days
              loadedWidget_datesSplit loadedWidget_sixColumns) as [w' Hrun].
  exists w'. split; [exact Hrun|].
  destruct (updateUI_frame loadedWidget w' Hrun) as (Hd & _ & _ & Hl & _).
  split; [exact Hd|exact Hl].
Defined.

(** ** The parser: further theorems *)

Lemma toString_member key obj :
  toString (member (qs key) obj) = stringMember key obj.
Proof.
  unfold member, stringMember. destruct (obj !! qs key) as [[]|]; done.
Qed.

(** X10: the parse loop reads each plain member as the string the
    day-object holds under its key, and as the empty string when the key is
    missing or holds something that is not a string; one missing member
    does not disturb the others.  The wind direction is the first element of
    [win] and the tip is [index[3].desc], empty when [win] or [index] is
    missing, not an array or too short.  The city and the PM2.5 value of
    the record are left alone. *)
Theorem parseDay_members (obj : gmap QString QJsonValue) (d : Day) :
  (∀ key f, (key, f) ∈ plainMembers →
            f (parseDay obj d) = stringMember key obj)
  ∧ mFx (parseDay obj d)
    = match obj !! qs "win" with
      | Some (Array (String s :: _)) => s
      | _ => []
      end
  ∧ mTips (parseDay obj d)
    = match obj !! qs "index" with
      | Some (Array (_ :: _ :: _ :: Object o :: _)) => stringMember "desc" o
      | _ => []
      end
  ∧ mCity (parseDay obj d) = mCity d
  ∧ mPm25 (parseDay obj d) = mPm25 d.
Proof.
  split; [|split; [|split; [|done]]].
  - intros key f Hin. unfold plainMembers in Hin. set_unfold in Hin.
    repeat (destruct Hin as [Hin|Hin];
            [injection Hin as -> ->; apply toString_member|]).
    done.
  - cbn [parseDay mFx set_mHu set_mTips set_mAirq set_mFl set_mFx].
    unfold member. destruct (obj !! qs "win") as [[| | | | |[|[] ?]|]|]; done.
  - cbn [parseDay mTips set_mHu set_mTips]. unfold member at 2.
    destruct (obj !! qs "index")
      as [[| | | | |[|? [|? [|? [|[] ?]]]]|]|]; try done.
    simpl. apply toString_member.
Qed.

(** X11: reading back the day-object of a record gives the record, with
    the city and PM2.5 value of the element of [days] it is written to. *)
Theorem parseDay_dayRecordObject (r d : Day) :
  parseDay (dayRecordObject r) d
  = mkDay (mCity d) (mDate r) (mWeek r) (mWeathType r) (mTemp r)
      (mTempLow r) (mTempHigh r) (mFx r) (mFl r) (mAirq r) (mTips r)
      (mHu r) (mPm25 d).
Proof.
  destruct r, d. vm_compute. reflexivity.
Qed.

Lemma mDate_parseDay obj d :
  mDate (parseDay obj d) = stringMember "date" obj.
Proof. apply toString_member. Qed.

(** X12: a 200 answer that is an object with a [data] array of six or
    seven day-objects whose first six dates have three "-"-separated parts,
    arriving at a window with its six columns, is handled without a fault:
    [days[i]] holds what the parse loop reads from element [i] (a seventh
    element of [days] that the array does not reach stays as it was), the
    summary labels show the city followed by "市", the temperature of the
    first day followed by "℃" and the answer's PM2.5 value, exactly one
    repaint is asked for, no box is shown and no request is sent. *)
Theorem readHttpReply_forecast (reply : QNetworkReply) (w : Widget)
  (root : gmap QString QJsonValue) (weaArray : list QJsonValue) :
  error reply = NoError →
  HttpStatusCodeAttribute reply = 200 →
  readAll reply = Some (Object root) →
  root !! qs "data" = Some (Array weaArray) →
  (6 ≤ length weaArray ≤ 7)%nat →
  (∀ i v, (i < 6)%nat → weaArray !! i = Some v →
     (3 ≤ length (split dash (stringMember "date" (toObject v))))%nat) →
  length (days w) = 7%nat →
  sixColumns w →
  ∃ w',
    readHttpReply reply w = Done w'
    ∧ (∀ i v, weaArray !! i = Some v →
         ∃ d, days w !! i = Some d
              ∧ days w' !! i
                = Some (parseDay (toObject v)
                          (if decide (i = 0)%nat
                           then set_mPm25
                                  (toString
                                     (member (qs "pm25")
                                        (toObject (member (qs "aqi") root))))
                                  (set_mCity
                                     (toString (member (qs "city") root)) d)
                           else d)))
    ∧ (∀ i, (length weaArray ≤ i)%nat → days w' !! i = days w !! i)
    ∧ text (labelCity (ui w'))
      = toString (member (qs "city") root) ++ qs "市"
    ∧ text (labelPM25Data (ui w'))
      = toString (member (qs "pm25") (toObject (member (qs "aqi") root)))
    ∧ text (labelTmp (ui w'))
      = stringMember "tem" (toObject (default Null (weaArray !! 0%nat)))
        ++ qs "℃"
    ∧ log w' = log w ++ [Repaint]
    ∧ strUrl w' = strUrl w.
Proof.
  intros He Hs Hb Hdata Hn Hdates Hlen Hcols.
  destruct (lookup_lt_is_Some_2 (days w) 0 ltac:(lia)) as [d0 Hd0].
  unfold readHttpReply. rewrite He, Hs, Hb. simpl andb. cbv iota.
  rewrite (parseWeatherJsonDataNew_object _ _ _ Hd0). cbv zeta.
  assert (Hc : contains (qs "data") root = true).
  { unfold contains. rewrite Hdata. apply bool_decide_eq_true_2. eauto. }
  assert (Hm : member (qs "data") root = Array weaArray).
  { unfold member. by rewrite Hdata. }
  rewrite Hc, Hm. simpl andb. cbv iota. simpl toArray.
  set (city := toString (member (qs "city") root)).
  set (pm25 := toString (member (qs "pm25")
                           (toObject (member (qs "aqi") root)))).
  set (ds0 := <[0%nat := set_mPm25 pm25 (set_mCity city d0)]> (days w)).
  assert (Hl0 : length ds0 = 7%nat) by (unfold ds0; by rewrite length_insert).
  destruct (parseDays_in_range weaArray 0 ds0 ltac:(simpl; lia))
    as (ds' & Hrun & Hl & Hw & Hf).
  rewrite Hrun, bind_Done.
  destruct (lookup_lt_is_Some_2 weaArray 0 ltac:(lia)) as [v0 Hv0].
  destruct (Hw 0%nat v0 Hv0) as (d0' & Hd0' & Hd0'').
  simpl in Hd0', Hd0''.
  assert (d0' = set_mPm25 pm25 (set_mCity city d0)) as ->.
  { unfold ds0 in Hd0'. rewrite list_lookup_insert_eq in Hd0' by lia.
    congruence. }
  destruct (updateUI_completes (set_days ds' w)
              (parseDay (toObject v0) (set_mPm25 pm25 (set_mCity city d0))))
    as (w' & Hui & Hd' & Hcity & Hpm & Htmp & Hlog).
  - exact Hd0''.
  - simpl. lia.
  - intros i d Hi Hd. simpl in Hd.
    destruct (lookup_lt_is_Some_2 weaArray i ltac:(lia)) as [v Hv].
    destruct (Hw i v Hv) as (dd & _ & Hdd). simpl in Hdd.
    rewrite Hdd in Hd. injection Hd as <-.
    rewrite mDate_parseDay. by apply (Hdates i).
  - exact Hcols.
  - exists w'. split; [exact Hui|]. rewrite Hd'. simpl days.
    split; [|split; [|split; [|split; [|split; [|split]]]]].
    + intros i v Hv. destruct (Hw i v Hv) as (d & Hd & Hdd).
      simpl in Hd, Hdd. unfold ds0 in Hd.
      destruct (decide (i = 0%nat)) as [->|Hne].
      * rewrite list_lookup_insert_eq in Hd by lia. injection Hd as <-.
        exists d0. by split.
      * rewrite list_lookup_insert_ne in Hd by done. exists d. by split.
    + intros i Hi. rewrite Hf by (simpl; lia). unfold ds0.
      apply list_lookup_insert_ne. lia.
    + rewrite Hcity. reflexivity.
    + rewrite Hpm. reflexivity.
    + rewrite Htmp, Hv0. simpl default. f_equal.
      apply (toString_member "tem").
    + exact Hlog.
    + apply updateUI_Done in Hui as (? & _ & _ & -> & _). reflexivity.
Qed.

(** X13: whenever an answer with a [data] array has been handled to the
    end, the elements of [days] the array does not reach (apart from the two
    writes to [days[0]]) are as they were, so a forecast with fewer
    day-objects than columns leaves the later columns on the records of the
    previous forecast; the city and the PM2.5 value are stored in [days[0]]
    only; [days] keeps its seven elements. *)
Theorem parseWeatherJsonDataNew_stale (root : gmap QString QJsonValue)
  (weaArray : list QJsonValue) (w w' : Widget) :
  root !! qs "data" = Some (Array weaArray) →
  length (days w) = 7%nat →
  parseWeatherJsonDataNew (Some (Object root)) w = Done w' →
  (length weaArray ≤ 7)%nat
  ∧ length (days w') = 7%nat
  ∧ (∀ i, (1 ≤ i)%nat → (length weaArray ≤ i)%nat →
          days w' !! i = days w !! i)
  ∧ (∀ i d', (1 ≤ i)%nat → days w' !! i = Some d' →
       ∃ d, days w !! i = Some d
            ∧ mCity d' = mCity d ∧ mPm25 d' = mPm25 d).
Proof.
  intros Hdata Hlen Hrun.
  destruct (lookup_lt_is_Some_2 (days w) 0 ltac:(lia)) as [d0 Hd0].
  rewrite (parseWeatherJsonDataNew_object _ _ _ Hd0) in Hrun.
  cbv zeta in Hrun.
  assert (Hc : contains (qs "data") root = true).
  { unfold contains. rewrite Hdata. apply bool_decide_eq_true_2. eauto. }
  assert (Hm : member (qs "data") root = Array weaArray).
  { unfold member. by rewrite Hdata. }
  rewrite Hc, Hm in Hrun. simpl andb in Hrun. cbv iota in Hrun.
  simpl toArray in Hrun.
  apply bind_inv_Done in Hrun as (ds' & Hparse & Hui).
  apply updateUI_Done in Hui as (? & _ & Hd' & _). simpl in Hd'.
  rewrite Hd'. clear Hd'.
  match type of Hparse with
  | parseDays _ _ ?l = _ => set (ds0 := l) in *
  end.
  assert (Hl0 : length ds0 = 7%nat) by (unfold ds0; by rewrite length_insert).
  assert (Hle : (length weaArray ≤ 7)%nat).
  { destruct (le_lt_dec (length weaArray) 7) as [|Hgt]; [done|].
    rewrite (parseDays_out_of_range weaArray 0 ds0) in Hparse
      by (simpl; lia).
    discriminate Hparse. }
  destruct (parseDays_in_range weaArray 0 ds0 ltac:(simpl; lia))
    as (ds'' & Hrun & Hl & Hw & Hf).
  rewrite Hrun in Hparse. injection Hparse as ->.
  split; [exact Hle|]. split; [lia|]. split.
  - intros i H1 Hi. rewrite Hf by (simpl; lia). unfold ds0.
    apply list_lookup_insert_ne. lia.
  - intros i d' H1 Hd'.
    assert (H0i : ds0 !! i = days w !! i).
    { unfold ds0. apply list_lookup_insert_ne. lia. }
    destruct (le_lt_dec (length weaArray) i) as [Hge|Hlt].
    + rewrite Hf in Hd' by (simpl; lia). rewrite H0i in Hd'. eauto.
    + destruct (lookup_lt_is_Some_2 weaArray i Hlt) as [v Hv].
      destruct (Hw i v Hv) as (d & Hd & Hdd). simpl in Hd, Hdd.
      rewrite Hdd in Hd'. injection Hd' as <-.
      rewrite H0i in Hd. exists d. done.
Qed.

Lemma parseDay_members_witness :
  mDate (parseDay (members [("date", str "2025-03-01")]) emptyDay)
  = qs "2025-03-01".
Proof.
  rewrite (proj1 (parseDay_members (members [("date", str "2025-03-01")])
                    emptyDay) "date" mDate).
  - vm_compute. reflexivity.
  - apply list_elem_of_here.
Defined.

Lemma sampleDays_dates i v :
  sampleDays !! i = Some v →
  (3 ≤ length (split dash (stringMember "date" (toObject v))))%nat.
Proof.
  intros Hv.
  assert (H : forallb
                (λ v, 3 <=? length (split dash
                                      (stringMember "date" (toObject v))))%nat
                sampleDays = true) by (vm_compute; reflexivity).
  rewrite forallb_forall in H. apply Nat.leb_le, H.
  apply list_elem_of_In. by apply list_elem_of_lookup_2 with i.
Qed.

Lemma readHttpReply_forecast_witness :
  ∃ w', readHttpReply (okReply sampleForecast) sampleWidget = Done w'
        ∧ text (labelCity (ui w')) = qs "北京市"
        ∧ log w' = log sampleWidget ++ [Repaint].
Proof.
  destruct (readHttpReply_forecast (okReply sampleForecast) sampleWidget
              (members [ ("city", str "北京");
                         ("aqi", object [("pm25", str "35")]);
                         ("data", Array sampleDays) ])
              sampleDays)
    as (w' & Hrun & _ & _ & Hcity & _ & _ & Hlog & _).
  - reflexivity.
  - reflexivity.
  - reflexivity.
  - vm_compute. reflexivity.
  - vm_compute. lia.
  - intros i v _. apply sampleDays_dates.
  - vm_compute. reflexivity.
  - vm_compute. repeat split; lia.
  - exists w'. split; [exact Hrun|]. split; [|exact Hlog].
    rewrite Hcity. vm_compute. reflexivity.
Defined.

Lemma parseWeatherJsonDataNew_stale_witness :
  ∃ w', result (parseWeatherJsonDataNew emptyDataForecast loadedWidget)
        = Some w'
        ∧ days w' !! 3%nat = days loadedWidget !! 3%nat.
Proof.
  destruct (parseWeatherJsonDataNew emptyDataForecast loadedWidget)
    as [w'|f] eqn:Hrun.
  - exists w'. split; [reflexivity|].
    destruct (parseWeatherJsonDataNew_stale emptyDataRoot [] loadedWidget w')
      as (_ & _ & Hkeep & _).
    + vm_compute. reflexivity.
    + vm_compute. reflexivity.
    + exact Hrun.
    + apply Hkeep; simpl; lia.
  - exfalso. revert Hrun. vm_compute. discriminate.
Defined.

(** ** The charts: further theorems *)

Lemma plotTemp_Done m w middle ave i lb d acc :
  mAirqList w !! i = Some lb → days w !! i = Some d →
  plotTemp m w middle ave i acc
  = Done (acc.1 ++ [plotted m middle ave lb d],
          acc.2 ++ dotAndCaption m (plotted m middle ave lb d) d).
Proof.
  intros Hl Hd. unfold plotTemp, label_get, day_at. rewrite Hl, Hd.
  reflexivity.
Qed.

Lemma for_range_plotTemp_exact m w middle ave n : ∀ i acc,
  (i + n ≤ length (mAirqList w))%nat → (i + n ≤ length (days w))%nat →
  for_range i n (plotTemp m w middle ave) acc
  = let pts := zip_with (plotted m middle ave)
                 (take n (drop i (mAirqList w))) (take n (drop i (days w))) in
    Done (acc.1 ++ pts,
          acc.2 ++ concat (zip_with (dotAndCaption m) pts
                             (take n (drop i (days w))))).
Proof.
  induction n as [|n IH]; intros i acc Hl Hd; simpl.
  - rewrite !app_nil_r. by destruct acc.
  - destruct (lookup_lt_is_Some_2 (mAirqList w) i ltac:(lia)) as [lb Hlb].
    destruct (lookup_lt_is_Some_2 (days w) i ltac:(lia)) as [d Hdd].
    rewrite (plotTemp_Done _ _ _ _ _ _ _ _ Hlb Hdd), bind_Done.
    rewrite IH by lia. cbv zeta.
    rewrite (drop_S _ _ _ Hlb), (drop_S _ _ _ Hdd). simpl.
    by rewrite <- !app_assoc.
Qed.

Lemma px_zip_with_plotted m middle ave (l : list QLabel) : ∀ k : list Day,
  (length l ≤ length k)%nat →
  px <$> zip_with (plotted m middle ave) l k = hcenter <$> l.
Proof.
  induction l as [|lb l IH]; intros [|d k] Hlen; simpl in *; try done;
    try lia.
  f_equal. apply IH. lia.
Qed.

(** X14: on a window with six columns and six stored records a chart is
    painted without a fault whatever the temperature texts are: three
    set-up calls, then for each of the six days a dot of radius 3 at its
    point and a caption 10 to the left and 10 above it reading the stored
    text followed by "°", then five segments joining consecutive points.
    The six points stand at the horizontal centres of the six badges. *)
Theorem drawTempLine_commands (m : Day → QString) (c : GlobalColor) (h : Z)
  (w : Widget) :
  (6 ≤ length (days w))%nat →
  (6 ≤ length (mAirqList w))%nat →
  ∃ points,
    drawTempLine m c h w
    = Done (points,
            [SetAntialiasing; SetPen c; SetBrush c]
            ++ concat (zip_with (dotAndCaption m) points (take 6 (days w)))
            ++ ((λ i, DrawLine (points !!! i) (points !!! S i)) <$> seq 0 5))
    ∧ length points = 6%nat
    ∧ px <$> points = hcenter <$> take 6 (mAirqList w).
Proof.
  intros Hd Hl. unfold drawTempLine.
  rewrite for_range_sumTemp by (simpl; lia). rewrite bind_Done.
  rewrite for_range_plotTemp_exact by (simpl; lia). cbv zeta.
  rewrite bind_Done, !drop_0. cbn [fst snd].
  eexists. split; [|split].
  - rewrite app_nil_l, <- app_assoc. reflexivity.
  - rewrite length_zip_with, !length_take. lia.
  - apply px_zip_with_plotted. rewrite !length_take. lia.
Qed.

(** X15: inside the [int] range the charts are drawn to scale: between
    any two days the vertical distance of their points is three pixels per
    degree, the warmer day higher on the screen (smaller [y]). *)
Theorem drawTempLine_scale (m : Day → QString) (c : GlobalColor) (h : Z)
  (w : Widget) (temps : list Z) :
  (toInt ∘ m) <$> take 6 (days w) = temps →
  length temps = 6%nat →
  (6 ≤ length (mAirqList w))%nat →
  in_int h →
  in_int (sum_temps temps) →
  (∀ t, t ∈ temps → in_int (spec_y temps h t)) →
  ∃ points cmds,
    drawTempLine m c h w = Done (points, cmds)
    ∧ ∀ i j p q ti tj,
        points !! i = Some p → points !! j = Some q →
        temps !! i = Some ti → temps !! j = Some tj →
        py p - py q = 3 * (tj - ti) ∧ (ti ≤ tj → py q ≤ py p).
Proof.
  intros Ht Hlen Hl Hh Hsum Hy.
  destruct (drawTempLine_points m c h w temps Ht Hlen Hl Hh Hsum Hy)
    as [cmds Hrun].
  eexists _, cmds. split; [exact Hrun|].
  intros i j p q ti tj Hp Hq Hti Htj.
  apply lookup_zip_with_Some in Hp as (lb & t & -> & _ & Ht1).
  apply lookup_zip_with_Some in Hq as (lb' & t' & -> & _ & Ht2).
  rewrite Hti in Ht1. rewrite Htj in Ht2.
  injection Ht1 as <-. injection Ht2 as <-.
  simpl. unfold spec_y. lia.
Qed.

Lemma drawTempLine_scale_witness :
  ∃ points cmds,
    drawTempLineHigh loadedWidget = Done (points, cmds)
    ∧ ∀ p q, points !! 0%nat = Some p → points !! 1%nat = Some q →
             py p - py q = 3.
Proof.
  destruct (drawTempLine_scale mTempHigh yellow 150 loadedWidget
              [15; 16; 12; 13; 17; 19])
    as (points & cmds & Hrun & Hscale).
  - vm_compute. reflexivity.
  - reflexivity.
  - vm_compute. lia.
  - vm_compute. split; discriminate.
  - vm_compute. split; discriminate.
  - intros t Hin. set_unfold in Hin.
    repeat (destruct Hin as [->|Hin];
            [vm_compute; split; discriminate|]).
    done.
  - exists points, cmds. split; [exact Hrun|].
    intros p q Hp Hq.
    destruct (Hscale 0%nat 1%nat p q 15 16 Hp Hq eq_refl eq_refl) as [H _].
    exact H.
Defined.

Lemma drawTempLine_commands_witness :
  ∃ points,
    (λ r : list QPoint * list PaintCmd, r.1)
      <$> result (drawTempLineLow loadedWidget) = Some points
    ∧ length points = 6%nat.
Proof.
  destruct (drawTempLine_commands mTempLow blue 150 loadedWidget)
    as (points & Hrun & Hlen & _).
  - vm_compute. lia.
  - vm_compute. lia.
  - exists points. split; [|exact Hlen].
    unfold drawTempLineLow.
    change (widget0405_height (ui loadedWidget)) with 150.
    by rewrite Hrun.
Defined.

(** ** Dragging the window: theorems *)

Lemma int_sub_sub a b c : int_sub a (int_sub b c) = int_wrap (c + (a - b)).
Proof.
  unfold int_sub. destruct (int_wrap_repr (b - c)) as [k ->].
  replace (a - (b - c + k * 2 ^ 32)) with (c + (a - b) + (- k) * 2 ^ 32)
    by ring.
  apply int_wrap_shift.
Qed.

Lemma mouseMoveEvents_last (events : list QMouseEvent) (e : QMouseEvent)
  (f : Frame) :
  let f' := foldl (λ f ev, mouseMoveEvent ev f) f (events ++ [e]) in
  pos f' = QPoint_sub (globalPos e) (mOffset f)
  ∧ mOffset f' = mOffset f ∧ menuExecs f' = menuExecs f.
Proof.
  cbv zeta. rewrite foldl_app. simpl.
  assert (H : ∀ f0, mOffset (foldl (λ f ev, mouseMoveEvent ev f) f0 events)
                    = mOffset f0
                    ∧ menuExecs (foldl (λ f ev, mouseMoveEvent ev f) f0 events)
                      = menuExecs f0).
  { induction events as [|ev events IH]; intros f0; simpl; [done|].
    destruct (IH (mouseMoveEvent ev f0)) as [-> ->]. done. }
  destruct (H f) as [-> ->]. done.
Qed.

(** X16: a drag moves the window by the displacement of the cursor: after
    a left press at [g] and any run of move events that ends at [g'], the
    window is where it was plus [g' - g] (in [int] arithmetic), whatever the
    moves in between; the quit menu is not opened.  A right press opens the
    quit menu at the cursor and changes neither the position nor the grab
    offset. *)
Theorem drag_follows_cursor (cursor g : QPoint)
  (moves : list QMouseEvent) (last_move : QMouseEvent) (f : Frame) :
  let pressed := mousePressEvent cursor (mkMouseEvent LeftButton g) f in
  let dropped :=
    foldl (λ f ev, mouseMoveEvent ev f) pressed (moves ++ [last_move]) in
  pos dropped
  = mkQPoint (int_wrap (px (pos f) + (px (globalPos last_move) - px g)))
      (int_wrap (py (pos f) + (py (globalPos last_move) - py g)))
  ∧ menuExecs dropped = menuExecs f
  ∧ mousePressEvent cursor (mkMouseEvent RightButton g) f
    = mkFrame (pos f) (mOffset f) (menuExecs f ++ [cursor]).
Proof.
  cbv zeta.
  destruct (mouseMoveEvents_last moves last_move
              (mousePressEvent cursor (mkMouseEvent LeftButton g) f))
    as (-> & _ & ->).
  split; [|split; reflexivity].
  unfold mousePressEvent, QPoint_sub. simpl.
  by rewrite !int_sub_sub.
Qed.

(** ** What every handler keeps: theorems *)

Lemma days_assign_length ds i g ds' :
  days_assign ds i g = Done ds' → length ds' = length ds.
Proof.
  unfold days_assign. destruct (ds !! i); [|discriminate].
  intros [= <-]. apply length_insert.
Qed.

Lemma parseDays_length weaArray : ∀ i ds ds',
  parseDays i weaArray ds = Done ds' → length ds' = length ds.
Proof.
  induction weaArray as [|v rest IH]; intros i ds ds' H; simpl in H.
  - by injection H as <-.
  - apply bind_inv_Done in H as (ds1 & H1 & H).
    apply days_assign_length in H1. apply IH in H. lia.
Qed.

Lemma updateUI_keeps w w' :
  updateUI w = Done w' →
  days w' = days w ∧ strUrl w' = strUrl w
  ∧ log w' = log w ++ [Repaint]
  ∧ (sixColumns w → sixColumns w').
Proof.
  intros H. pose proof (updateUI_columns _ _ H) as Hcols.
  apply updateUI_Done in H as (? & _ & Hd & Hs & _ & Hl & _).
  done.
Qed.

Lemma parseWeatherJsonDataNew_keeps rawData w w' :
  parseWeatherJsonDataNew rawData w = Done w' →
  length (days w') = length (days w)
  ∧ strUrl w' = strUrl w
  ∧ requestUrls (log w') = requestUrls (log w)
  ∧ (sixColumns w → sixColumns w').
Proof.
  unfold parseWeatherJsonDataNew.
  destruct (negb (doc_isNull (fromJson rawData))
            && doc_isObject (fromJson rawData)); [|by intros [= <-]].
  intros H.
  apply bind_inv_Done in H as (ds1 & H1 & H).
  apply bind_inv_Done in H as (ds2 & H2 & H).
  apply days_assign_length in H1, H2.
  destruct (contains (qs "data") (doc_object (fromJson rawData))
            && isArray (member (qs "data") (doc_object (fromJson rawData)))).
  - apply bind_inv_Done in H as (ds3 & H3 & H).
    apply parseDays_length in H3.
    apply updateUI_keeps in H as (Hd & Hs & Hl & Hc).
    simpl in Hd, Hs, Hl, Hc. rewrite Hd, Hs, Hl.
    split; [lia|]. split; [done|]. split; [|done].
    unfold requestUrls. rewrite omap_app. simpl. by rewrite app_nil_r.
  - injection H as <-. simpl. split; [lia|]. done.
Qed.

Lemma submit_steady citycode_json q w :
  steady w → steady (submit citycode_json q w).
Proof.
  intros (Hd & Hc & Hl & Hp).
  pose proof (submit_members citycode_json q w) as Hm. cbv zeta in Hm.
  destruct Hm as (Hs & _ & Hds & _ & Hlog).
  unfold steady. rewrite Hds, Hlog, Hs.
  split; [done|]. split.
  { clear -Hc. unfold submit, on_LineEditCity_clicked.
    destruct (getCityCodeFromName _ _ _) as [c u1].
    destruct (bool_decide (c ≠ [])); exact Hc. }
  split; [|by apply prefix_app_r].
  unfold requestUrls. rewrite omap_app.
  destruct (decide _) as [E|E].
  - simpl. by rewrite !app_nil_r.
  - simpl. by rewrite last_snoc.
Qed.

Lemma readHttpReply_steady reply w w' :
  steady w → readHttpReply reply w = Done w' → steady w'.
Proof.
  intros (Hd & Hc & Hl & Hp). unfold readHttpReply.
  destruct (bool_decide (error reply = NoError)
            && bool_decide (HttpStatusCodeAttribute reply = 200)).
  - intros H. apply parseWeatherJsonDataNew_keeps in H as (Hd' & Hs & Hr & Hc').
    unfold steady. rewrite Hd', Hs, Hr. auto.
  - intros [= <-]. unfold steady. simpl.
    unfold requestUrls. rewrite omap_app. simpl. rewrite app_nil_r. done.
Qed.

Lemma handleAll_keeps citycode_json actions : ∀ w w',
  steady w → handleAll citycode_json actions w = Done w' → steady w'.
Proof.
  induction actions as [|a actions IH]; intros w w' Hw H; simpl in H.
  - by injection H as <-.
  - apply bind_inv_Done in H as (w1 & H1 & H).
    apply (IH w1 w'); [|exact H].
    destruct a as [q|reply]; simpl in H1.
    + injection H1 as <-. by apply submit_steady.
    + by apply (readHttpReply_steady reply w).
Qed.

Lemma drawTempLine_paints m c h w :
  (6 ≤ length (days w))%nat → (6 ≤ length (mAirqList w))%nat →
  is_Some (result (drawTempLine m c h w)).
Proof.
  intros Hd Hl. unfold drawTempLine.
  rewrite for_range_sumTemp by (simpl; lia). rewrite bind_Done.
  rewrite for_range_plotTemp_exact by (simpl; lia). cbv zeta.
  rewrite bind_Done. simpl. eauto.
Qed.

(** X17: from construction on, whatever submissions and replies the
    window handles (as long as none of them stops with a fault), [days]
    keeps its seven elements and every label list its six labels, the
    request string is the URL of the latest GET and still begins with the
    static string, and both charts can be painted without a fault. *)
Theorem handleAll_steady (citycode_json : QByteArray) (day0 : Day)
  (form : Ui)
  (labelDay labelDate labelWeatherkon labelWeatherTypeDate labelAirQ labelFX
     labelFL : list QLabel)
  (actions : list Action) (w' : Widget) :
  let w0 :=
    Widget_new day0 form labelDay labelDate labelWeatherkon
      labelWeatherTypeDate labelAirQ labelFX labelFL in
  sixColumns w0 →
  handleAll citycode_json actions w0 = Done w' →
  length (days w') = 7%nat
  ∧ sixColumns w'
  ∧ last (requestUrls (log w')) = Some (strUrl w')
  ∧ baseUrl `prefix_of` strUrl w'
  ∧ is_Some (result (drawTempLineHigh w'))
  ∧ is_Some (result (drawTempLineLow w')).
Proof.
  intros w0 Hcols Hrun.
  assert (Hw0 : steady w0).
  { split; [apply length_replicate|]. split; [exact Hcols|].
    split; [exact (eq_refl (Some baseUrl))|exact (reflexivity baseUrl)]. }
  destruct (handleAll_keeps _ _ _ _ Hw0 Hrun) as (Hd & Hc & Hl & Hp).
  split; [exact Hd|]. split; [exact Hc|]. split; [exact Hl|].
  split; [exact Hp|].
  destruct Hc as (_ & _ & _ & _ & Ha & _).
  unfold drawTempLineHigh, drawTempLineLow.
  split; apply drawTempLine_paints; lia.
Qed.

Lemma handleAll_steady_witness :
  handleAll sampleCities [ReplyFinished (okReply sampleForecast)] sampleWidget
  = Done loadedWidget
  ∧ length (days loadedWidget) = 7%nat
  ∧ last (requestUrls (log loadedWidget)) = Some (strUrl loadedWidget).
Proof.
  assert (Hrun : handleAll sampleCities
                   [ReplyFinished (okReply sampleForecast)] sampleWidget
                 = Done loadedWidget).
  { vm_compute. reflexivity. }
  split; [exact Hrun|].
  destruct (handleAll_steady sampleCities emptyDay sampleForm sampleColumn
              sampleColumn sampleColumn sampleColumn sampleColumn
              sampleColumn sampleColumn
              [ReplyFinished (okReply sampleForecast)] loadedWidget)
    as (Hd & _ & Hl & _).
  - vm_compute. lia.
  - exact Hrun.
  - split; [exact Hd|exact Hl].
Defined.
